(** * Translation marketplace: project / bid / escrow / review lifecycle

    A shallow embedding of the Express route handlers of the server
    (routes for auth, bids, projects, transactions, reviews and users) over
    an explicit model of the Prisma store, and the properties of the
    lifecycle that the handlers establish.

    Conventions of the embedding:
    - a table is a finite map from the primary key [id] to the row;
      ids are opaque strings generated by the database, modelled as [N]
      drawn from a counter kept in the store;
    - a handler is a function [Store -> Response * Store]; an exception
      caught by the handler's [catch] block is the 500 response;
    - JavaScript numbers that hold money or ratings are modelled as exact
      rationals [Q];
    - read-only routes (the GET routes and login) do not change the store
      and are not modelled. *)

From Stdlib Require Import ZArith QArith Qround Qabs Lia Lqa.
From stdpp Require Import gmap strings list fin_maps.

Local Open Scope string_scope.

(** ** Data model (the Prisma models the routes read and write) *)

Abbreviation Id := N.

Inductive Role := CLIENT | FREELANCER.
Inductive ProjectStatus := POSTED | IN_PROGRESS | COMPLETED | PAID | CANCELLED.
Inductive BidStatus := PENDING | ACCEPTED | REJECTED.
Inductive TransactionStatus := T_PENDING | T_RELEASED | T_REFUNDED.

Global Instance Role_eq_dec : EqDecision Role.
Proof. solve_decision. Defined.
Global Instance ProjectStatus_eq_dec : EqDecision ProjectStatus.
Proof. solve_decision. Defined.
Global Instance BidStatus_eq_dec : EqDecision BidStatus.
Proof. solve_decision. Defined.
Global Instance TransactionStatus_eq_dec : EqDecision TransactionStatus.
Proof. solve_decision. Defined.

Record User := mkUser {
  u_name : string;
  u_email : string;
  u_role : Role;
  u_languages : list string;
  u_rating : Q;
  u_profilePicture : option string
}.

Record Project := mkProject {
  p_clientId : Id;
  p_title : string;
  p_description : string;
  p_sourceLanguage : string;
  p_targetLanguage : string;
  p_budget : Q;
  p_deadline : option string;
  p_attachedFiles : list string;
  p_status : ProjectStatus
}.

Record Bid := mkBid {
  b_projectId : Id;
  b_freelancerId : Id;
  b_bidAmount : Q;
  b_estimatedTime : string;
  b_status : BidStatus
}.

Record Transaction := mkTransaction {
  t_projectId : Id;
  t_clientId : Id;
  t_freelancerId : Id;
  t_amount : Q;
  t_stripePaymentId : option string;
  t_status : TransactionStatus
}.

Record Review := mkReview {
  r_projectId : Id;
  r_reviewerId : Id;
  r_revieweeId : Id;
  r_rating : Z;
  r_comment : option string
}.

Record Store := mkStore {
  users : gmap N User;
  projects : gmap N Project;
  bids : gmap N Bid;
  transactions : gmap N Transaction;
  reviews : gmap N Review;
  next_id : N
}.

Definition empty_store : Store := mkStore ∅ ∅ ∅ ∅ ∅ 0%N.

(** *** Column defaults of the schema

    The routes create rows without naming these columns, so their initial
    values are the defaults that the Prisma schema declares. *)

(** Modelled from the spec: the schema default of [Project.status];
    "create(...) -> Project with status=POSTED". *)
Definition default_project_status : ProjectStatus := POSTED.

(** Modelled from the spec: the schema default of [Bid.status];
    "submit(...) Returns Bid with status=PENDING". *)
Definition default_bid_status : BidStatus := PENDING.

(** Modelled from the spec: the schema default of [Transaction.status];
    "create an EscrowTransaction record in PENDING status". *)
Definition default_transaction_status : TransactionStatus := T_PENDING.

(** Modelled from the spec: the schema default of [User.rating];
    "rating (derived, 0-5)", a user without reviews has rating 0. *)
Definition default_user_rating : Q := 0%Q.

(** Referential action of the foreign keys that point to a project. The
    routes do not depend on it, so it is a parameter of the model. *)
Inductive ReferentialAction := Cascade | Restrict.

(** ** Field updates ([data: { ... }] of a Prisma update) *)

Definition set_p_status (st : ProjectStatus) (p : Project) : Project :=
  mkProject (p_clientId p) (p_title p) (p_description p) (p_sourceLanguage p)
            (p_targetLanguage p) (p_budget p) (p_deadline p) (p_attachedFiles p) st.

Definition set_b_status (st : BidStatus) (b : Bid) : Bid :=
  mkBid (b_projectId b) (b_freelancerId b) (b_bidAmount b) (b_estimatedTime b) st.

Definition set_t_status (st : TransactionStatus) (t : Transaction) : Transaction :=
  mkTransaction (t_projectId t) (t_clientId t) (t_freelancerId t) (t_amount t)
                (t_stripePaymentId t) st.

Definition set_u_rating (q : Q) (u : User) : User :=
  mkUser (u_name u) (u_email u) (u_role u) (u_languages u) q (u_profilePicture u).

Definition set_users (m : gmap N User) (s : Store) : Store :=
  mkStore m (projects s) (bids s) (transactions s) (reviews s) (next_id s).
Definition set_projects (m : gmap N Project) (s : Store) : Store :=
  mkStore (users s) m (bids s) (transactions s) (reviews s) (next_id s).
Definition set_bids (m : gmap N Bid) (s : Store) : Store :=
  mkStore (users s) (projects s) m (transactions s) (reviews s) (next_id s).
Definition set_transactions (m : gmap N Transaction) (s : Store) : Store :=
  mkStore (users s) (projects s) (bids s) m (reviews s) (next_id s).
Definition set_reviews (m : gmap N Review) (s : Store) : Store :=
  mkStore (users s) (projects s) (bids s) (transactions s) m (next_id s).
Definition bump_id (s : Store) : Store :=
  mkStore (users s) (projects s) (bids s) (transactions s) (reviews s)
          (N.succ (next_id s)).

(** ** The Prisma client over the store *)

Section Tables.
Context {A : Type}.

(** [findFirst] used as an existence test, and [Array.prototype.some]. *)
Definition table_some (P : N → A → bool) (m : gmap N A) : bool :=
  existsb (λ kv, P kv.1 kv.2) (map_to_list m).

(** [findMany({ where })]: the matching rows. *)
Definition findMany (P : N → A → bool) (m : gmap N A) : list (N * A) :=
  List.filter (λ kv, P kv.1 kv.2) (map_to_list m).

(** [update({ where: { id }, data })]: returns the updated row; throws
    when no row has that id. *)
Definition update (id : N) (f : A → A) (m : gmap N A) : option (A * gmap N A) :=
  match m !! id with
  | Some r => Some (f r, <[id := f r]> m)
  | None => None
  end.

(** [updateMany({ where, data })]: never throws. *)
Definition updateMany (P : N → A → bool) (f : A → A) (m : gmap N A) : gmap N A :=
  map_imap (λ i r, Some (if P i r then f r else r)) m.

(** Rows removed by a cascading delete. *)
Definition deleteMany (P : N → A → bool) (m : gmap N A) : gmap N A :=
  filter (λ kv, P kv.1 kv.2 = false) m.
End Tables.

Definition has_row {A : Type} (m : gmap N A) (id : N) : bool :=
  match m !! id with Some _ => true | None => false end.

(** [create] of each model: the row gets a fresh id. The relation fields
    ([project], [client], [freelancer], [reviewer], [reviewee]) are foreign
    keys, so a create whose referenced row is absent throws. *)

Definition create_user (u : User) (s : Store) : N * Store :=
  (next_id s, bump_id (set_users (<[next_id s := u]> (users s)) s)).

Definition create_project (p : Project) (s : Store) : option (N * Store) :=
  if has_row (users s) (p_clientId p)
  then Some (next_id s, bump_id (set_projects (<[next_id s := p]> (projects s)) s))
  else None.

Definition create_bid (b : Bid) (s : Store) : option (N * Store) :=
  if has_row (projects s) (b_projectId b) && has_row (users s) (b_freelancerId b)
  then Some (next_id s, bump_id (set_bids (<[next_id s := b]> (bids s)) s))
  else None.

(** The rows of a project and client: the selector
    [projectId_clientId: { projectId, clientId }]. *)
Definition same_project_client (pid cid : N) (_ : N) (t : Transaction) : bool :=
  bool_decide (t_projectId t = pid) && bool_decide (t_clientId t = cid).

(** The transaction table has the compound unique key
    [projectId_clientId]: the confirm-payment route selects the row to
    upsert by [where: { projectId_clientId: { projectId, clientId } }],
    a selector that Prisma accepts only for a key declared unique. A
    create that repeats the pair of an existing row therefore throws, as
    does one whose project, client or freelancer is absent. *)
Definition create_transaction (t : Transaction) (s : Store) : option (N * Store) :=
  if has_row (projects s) (t_projectId t) && has_row (users s) (t_clientId t)
     && has_row (users s) (t_freelancerId t)
     && negb (table_some (same_project_client (t_projectId t) (t_clientId t))
                         (transactions s))
  then Some (next_id s,
             bump_id (set_transactions (<[next_id s := t]> (transactions s)) s))
  else None.

Definition create_review (r : Review) (s : Store) : option (N * Store) :=
  if has_row (projects s) (r_projectId r) && has_row (users s) (r_reviewerId r)
     && has_row (users s) (r_revieweeId r)
  then Some (next_id s, bump_id (set_reviews (<[next_id s := r]> (reviews s)) s))
  else None.

(** [prisma.$transaction(async tx => ...)]: the writes of the body are
    committed when it returns and all discarded when it throws. *)
Definition prisma_transaction {A : Type} (body : Store → option (A * Store))
    (s : Store) : option A * Store :=
  match body s with
  | Some (a, s') => (Some a, s')
  | None => (None, s)
  end.

(** ** Responses *)

Inductive Body :=
| JError (error : string)
| JErrors
| JMessage (message : string)
| JUser (message : string) (id : N) (user : User)
| JProject (message : string) (id : N) (project : Project)
| JBid (message : string) (id : N) (bid : Bid)
| JBidTransaction (message : string) (bid : N * Bid) (transaction : N * Transaction)
| JTransaction (message : string) (id : N) (transaction : Transaction)
| JReview (message : string) (id : N) (review : Review)
| JPaymentIntent.

Record Response := mkResponse { res_status : nat; res_json : Body }.

Definition error (c : nat) (msg : string) : Response := mkResponse c (JError msg).

(** ** Middleware *)

(** Modelled from the spec: [authenticateToken] of [middleware/auth],
    which the routes import; "session identity is carried as a bearer token
    validated per request against the account store", a missing or invalid
    session is the AuthError 401. The token is modelled by the user id
    it carries, [None] when absent or invalid; the error texts are the
    names of the error taxonomy. *)
Definition authenticateToken (token : option N) (s : Store) : Response + (N * User) :=
  match token with
  | None => inl (error 401 "AuthError")
  | Some uid =>
      match users s !! uid with
      | None => inl (error 401 "AuthError")
      | Some u => inr (uid, u)
      end
  end.

(** Modelled from the spec: [requireRole] of [middleware/auth]; a caller
    whose role is not among [roles] is Forbidden (403). *)
Definition requireRole (roles : list Role) (u : User) : bool :=
  existsb (λ r, bool_decide (r = u_role u)) roles.

(** ** Bid routes *)

Record CreateBidReq := mkCreateBidReq {
  cb_projectId : Id;
  cb_bidAmount : Q;
  cb_estimatedTime : string
}.

(** [body('bidAmount').isFloat({ min: 1 })] and
    [body('estimatedTime').notEmpty()]. *)
Definition createBid_valid (req : CreateBidReq) : bool :=
  Qle_bool 1 (cb_bidAmount req) && negb (bool_decide (cb_estimatedTime req = "")).

Definition bid_of (pid fid : N) (_ : N) (b : Bid) : bool :=
  bool_decide (b_projectId b = pid) && bool_decide (b_freelancerId b = fid).

(** POST /bids *)
Definition createBid (token : option N) (req : CreateBidReq) (s : Store)
    : Response * Store :=
  match authenticateToken token s with
  | inl r => (r, s)
  | inr (uid, u) =>
    if negb (requireRole [FREELANCER] u)
    then (error 403 "Forbidden", s)
    else if negb (createBid_valid req) then (mkResponse 400 JErrors, s)
    else
      match projects s !! cb_projectId req with
      | None => (error 404 "Project not found", s)
      | Some project =>
        if negb (bool_decide (p_status project = POSTED))
        then (error 400 "Project is no longer accepting bids", s)
        else if bool_decide (p_clientId project = uid)
        then (error 400 "Cannot bid on your own project", s)
        else if table_some (bid_of (cb_projectId req) uid) (bids s)
        then (error 400 "You have already bid on this project", s)
        else
          let bid := mkBid (cb_projectId req) uid (cb_bidAmount req)
                           (cb_estimatedTime req) default_bid_status in
          match create_bid bid s with
          | Some (id, s') =>
              (mkResponse 201 (JBid "Bid submitted successfully" id bid), s')
          | None => (error 500 "Failed to submit bid", s)
          end
      end
  end.

(** The [where] of the [updateMany] in the accept route: the other
    pending bids of the project. *)
Definition other_pending (pid id : N) (i : N) (b : Bid) : bool :=
  bool_decide (b_projectId b = pid) && negb (bool_decide (i = id))
  && bool_decide (b_status b = PENDING).

(** The body of the [$transaction] of the accept route: four writes, each
    of which may throw. *)
Definition accept_writes (id : N) (bid : Bid) (project : Project) (s : Store)
    : option (((N * Bid) * (N * Transaction)) * Store) :=
  '(acceptedBid, bs) ← update id (set_b_status ACCEPTED) (bids s);
  let s1 := set_bids bs s in
  '(_, ps) ← update (b_projectId bid) (set_p_status IN_PROGRESS) (projects s1);
  let s2 := set_projects ps s1 in
  let s3 := set_bids (updateMany (other_pending (b_projectId bid) id)
                                 (set_b_status REJECTED) (bids s2)) s2 in
  let transaction :=
    mkTransaction (b_projectId bid) (p_clientId project) (b_freelancerId bid)
                  (b_bidAmount bid) None default_transaction_status in
  '(tid, s4) ← create_transaction transaction s3;
  Some (((id, acceptedBid), (tid, transaction)), s4).

(** PUT /bids/:id/accept *)
Definition acceptBid (token : option N) (id : N) (s : Store) : Response * Store :=
  match authenticateToken token s with
  | inl r => (r, s)
  | inr (uid, _) =>
    match bids s !! id with
    | None => (error 404 "Bid not found", s)
    | Some bid =>
      match projects s !! b_projectId bid with
      | None => (error 500 "Failed to accept bid", s)
      | Some project =>
        if negb (bool_decide (p_clientId project = uid))
        then (error 403 "Not authorized to accept this bid", s)
        else if negb (bool_decide (p_status project = POSTED))
        then (error 400 "Project is no longer accepting bids", s)
        else
          match prisma_transaction (accept_writes id bid project) s with
          | (Some (acceptedBid, transaction), s') =>
              (mkResponse 200 (JBidTransaction "Bid accepted successfully"
                                               acceptedBid transaction), s')
          | (None, s') => (error 500 "Failed to accept bid", s')
          end
      end
    end
  end.

(** PUT /bids/:id/reject *)
Definition rejectBid (token : option N) (id : N) (s : Store) : Response * Store :=
  match authenticateToken token s with
  | inl r => (r, s)
  | inr (uid, _) =>
    match bids s !! id with
    | None => (error 404 "Bid not found", s)
    | Some bid =>
      match projects s !! b_projectId bid with
      | None => (error 500 "Failed to reject bid", s)
      | Some project =>
        if negb (bool_decide (p_clientId project = uid))
        then (error 403 "Not authorized to reject this bid", s)
        else if negb (bool_decide (b_status bid = PENDING))
        then (error 400 "Bid cannot be rejected", s)
        else
          match update id (set_b_status REJECTED) (bids s) with
          | Some (rejectedBid, bs) =>
              (mkResponse 200 (JBid "Bid rejected successfully" id rejectedBid),
               set_bids bs s)
          | None => (error 500 "Failed to reject bid", s)
          end
      end
    end
  end.

(** ** Project routes

    Length and numeric validators are modelled on the request fields (the
    strings are those left by [trim()]); the format validators
    ([isEmail], [isISO8601]) and the multer upload are outside the model:
    the request holds the values they let through. *)

Definition length_between (lo hi : nat) (x : string) : bool :=
  (lo <=? String.length x)%nat && (String.length x <=? hi)%nat.

Definition opt_all {A : Type} (P : A → bool) (o : option A) : bool :=
  match o with Some a => P a | None => true end.

Record CreateProjectReq := mkCreateProjectReq {
  cp_title : string;
  cp_description : string;
  cp_sourceLanguage : string;
  cp_targetLanguage : string;
  cp_budget : Q;
  cp_deadline : option string;
  cp_files : list string
}.

Definition createProject_valid (req : CreateProjectReq) : bool :=
  length_between 5 100 (cp_title req)
  && length_between 20 2000 (cp_description req)
  && negb (bool_decide (cp_sourceLanguage req = ""))
  && negb (bool_decide (cp_targetLanguage req = ""))
  && Qle_bool 1 (cp_budget req).

(** POST /projects *)
Definition createProject (token : option N) (req : CreateProjectReq) (s : Store)
    : Response * Store :=
  match authenticateToken token s with
  | inl r => (r, s)
  | inr (uid, u) =>
    if negb (requireRole [CLIENT] u)
    then (error 403 "Forbidden", s)
    else if negb (createProject_valid req) then (mkResponse 400 JErrors, s)
    else
      let project :=
        mkProject uid (cp_title req) (cp_description req) (cp_sourceLanguage req)
                  (cp_targetLanguage req) (cp_budget req) (cp_deadline req)
                  (cp_files req) default_project_status in
      match create_project project s with
      | Some (id, s') =>
          (mkResponse 201 (JProject "Project created successfully" id project), s')
      | None => (error 500 "Failed to create project", s)
      end
  end.

Record UpdateProjectReq := mkUpdateProjectReq {
  up_title : option string;
  up_description : option string;
  up_budget : option Q;
  up_deadline : option string;
  up_status : option string
}.

(** The values admitted by
    [isIn(['POSTED', 'IN_PROGRESS', 'COMPLETED', 'PAID', 'CANCELLED'])]. *)
Definition parse_project_status (x : string) : option ProjectStatus :=
  if bool_decide (x = "POSTED") then Some POSTED
  else if bool_decide (x = "IN_PROGRESS") then Some IN_PROGRESS
  else if bool_decide (x = "COMPLETED") then Some COMPLETED
  else if bool_decide (x = "PAID") then Some PAID
  else if bool_decide (x = "CANCELLED") then Some CANCELLED
  else None.

Definition updateProject_valid (req : UpdateProjectReq) : bool :=
  opt_all (length_between 5 100) (up_title req)
  && opt_all (length_between 20 2000) (up_description req)
  && opt_all (Qle_bool 1) (up_budget req)
  && opt_all (λ x, bool_decide (is_Some (parse_project_status x))) (up_status req).

(** [updateData]: each field present in the body replaces the column; a
    field that passed its validator is truthy. *)
Definition apply_project_update (req : UpdateProjectReq) (p : Project) : Project :=
  mkProject (p_clientId p)
            (default (p_title p) (up_title req))
            (default (p_description p) (up_description req))
            (p_sourceLanguage p) (p_targetLanguage p)
            (default (p_budget p) (up_budget req))
            (match up_deadline req with Some d => Some d | None => p_deadline p end)
            (p_attachedFiles p)
            (default (p_status p) (up_status req ≫= parse_project_status)).

(** PUT /projects/:id *)
Definition updateProject (token : option N) (id : N) (req : UpdateProjectReq)
    (s : Store) : Response * Store :=
  match authenticateToken token s with
  | inl r => (r, s)
  | inr (uid, _) =>
    if negb (updateProject_valid req) then (mkResponse 400 JErrors, s)
    else
      match projects s !! id with
      | None => (error 404 "Project not found", s)
      | Some project =>
        if negb (bool_decide (p_clientId project = uid))
        then (error 403 "Not authorized to update this project", s)
        else
          match update id (apply_project_update req) (projects s) with
          | Some (updatedProject, ps) =>
              (mkResponse 200 (JProject "Project updated successfully" id
                                        updatedProject), set_projects ps s)
          | None => (error 500 "Failed to update project", s)
          end
      end
  end.

(** [prisma.project.delete]: under [Cascade] the rows that reference the
    project go with it; under [Restrict] the delete throws while such a
    row exists. *)
Definition references_project (s : Store) (id : N) : bool :=
  table_some (λ _ b, bool_decide (b_projectId b = id)) (bids s)
  || table_some (λ _ t, bool_decide (t_projectId t = id)) (transactions s)
  || table_some (λ _ r, bool_decide (r_projectId r = id)) (reviews s).

Definition delete_project (onDelete : ReferentialAction) (id : N) (s : Store)
    : option Store :=
  match onDelete with
  | Restrict =>
      if references_project s id then None
      else Some (set_projects (delete id (projects s)) s)
  | Cascade =>
      Some (mkStore (users s) (delete id (projects s))
              (deleteMany (λ _ b, bool_decide (b_projectId b = id)) (bids s))
              (deleteMany (λ _ t, bool_decide (t_projectId t = id)) (transactions s))
              (deleteMany (λ _ r, bool_decide (r_projectId r = id)) (reviews s))
              (next_id s))
  end.

(** DELETE /projects/:id (the attached files live on disk, outside the
    store). *)
Definition deleteProject (onDelete : ReferentialAction) (token : option N) (id : N)
    (s : Store) : Response * Store :=
  match authenticateToken token s with
  | inl r => (r, s)
  | inr (uid, _) =>
    match projects s !! id with
    | None => (error 404 "Project not found", s)
    | Some project =>
      if negb (bool_decide (p_clientId project = uid))
      then (error 403 "Not authorized to delete this project", s)
      else
        match delete_project onDelete id s with
        | Some s' => (mkResponse 200 (JMessage "Project deleted successfully"), s')
        | None => (error 500 "Failed to delete project", s)
        end
    end
  end.

(** ** Transaction routes

    The payment processor is external: a request carries what the Stripe
    call returned, [None] when the call throws. *)

Record PaymentIntent := mkPaymentIntent {
  pi_id : string;
  pi_status : string;
  pi_amount : Z
}.

Record CreateIntentReq := mkCreateIntentReq {
  ci_projectId : Id;
  ci_amount : Q;
  ci_stripe : option PaymentIntent
}.

(** POST /transactions/create-payment-intent *)
Definition createPaymentIntent (token : option N) (req : CreateIntentReq)
    (s : Store) : Response * Store :=
  match authenticateToken token s with
  | inl r => (r, s)
  | inr (uid, _) =>
    if negb (Qle_bool 1 (ci_amount req)) then (mkResponse 400 JErrors, s)
    else
      match projects s !! ci_projectId req with
      | None => (error 404 "Project not found", s)
      | Some project =>
        if negb (bool_decide (p_clientId project = uid))
        then (error 403 "Not authorized for this project", s)
        else if table_some (λ _ t, bool_decide (t_projectId t = ci_projectId req))
                           (transactions s)
        then (error 400 "Payment already exists for this project", s)
        else
          match ci_stripe req with
          | Some _ => (mkResponse 200 JPaymentIntent, s)
          | None => (error 500 "Failed to create payment intent", s)
          end
      end
  end.

Record ConfirmPaymentReq := mkConfirmPaymentReq {
  cf_paymentIntentId : string;
  cf_projectId : Id;
  cf_freelancerId : Id;
  cf_stripe : option PaymentIntent
}.

Definition confirmPayment_valid (req : ConfirmPaymentReq) : bool :=
  negb (bool_decide (cf_paymentIntentId req = "")).

Definition find_row {A : Type} (P : N → A → bool) (m : gmap N A) : option (N * A) :=
  List.find (λ kv, P kv.1 kv.2) (map_to_list m).

Definition confirm_update (paymentIntentId : string) (t : Transaction) : Transaction :=
  mkTransaction (t_projectId t) (t_clientId t) (t_freelancerId t) (t_amount t)
                (Some paymentIntentId) T_PENDING.

(** [prisma.transaction.upsert] on the key [projectId_clientId]. *)
Definition upsert_transaction (pid cid : N) (upd : Transaction → Transaction)
    (new : Transaction) (s : Store) : option ((N * Transaction) * Store) :=
  match find_row (same_project_client pid cid) (transactions s) with
  | Some (tid, t) =>
      Some ((tid, upd t), set_transactions (<[tid := upd t]> (transactions s)) s)
  | None =>
      '(tid, s') ← create_transaction new s;
      Some ((tid, new), s')
  end.

(** POST /transactions/confirm-payment *)
Definition confirmPayment (token : option N) (req : ConfirmPaymentReq) (s : Store)
    : Response * Store :=
  match authenticateToken token s with
  | inl r => (r, s)
  | inr (uid, _) =>
    if negb (confirmPayment_valid req) then (mkResponse 400 JErrors, s)
    else
      match cf_stripe req with
      | None => (error 500 "Failed to confirm payment", s)
      | Some paymentIntent =>
        if negb (bool_decide (pi_status paymentIntent = "succeeded"))
        then (error 400 "Payment not completed", s)
        else
          let new :=
            mkTransaction (cf_projectId req) uid (cf_freelancerId req)
                          (inject_Z (pi_amount paymentIntent) / 100)
                          (Some (cf_paymentIntentId req)) T_PENDING in
          match upsert_transaction (cf_projectId req) uid
                  (confirm_update (cf_paymentIntentId req)) new s with
          | Some ((tid, t), s') =>
              (mkResponse 200 (JTransaction
                 "Payment confirmed and funds held in escrow" tid t), s')
          | None => (error 500 "Failed to confirm payment", s)
          end
      end
  end.

(** The two writes shared by release and refund: they are issued one
    after the other outside any [$transaction], so when the second throws
    the first stays. *)
Definition settle (tid : N) (transaction : Transaction) (tst : TransactionStatus)
    (pst : ProjectStatus) (ok failed : string) (s : Store) : Response * Store :=
  match update tid (set_t_status tst) (transactions s) with
  | None => (error 500 failed, s)
  | Some (updatedTransaction, ts) =>
    let s1 := set_transactions ts s in
    match update (t_projectId transaction) (set_p_status pst) (projects s1) with
    | None => (error 500 failed, s1)
    | Some (_, ps) =>
        (mkResponse 200 (JTransaction ok tid updatedTransaction), set_projects ps s1)
    end
  end.

(** POST /transactions/:id/release *)
Definition releasePayment (token : option N) (id : N) (s : Store) : Response * Store :=
  match authenticateToken token s with
  | inl r => (r, s)
  | inr (uid, _) =>
    match transactions s !! id with
    | None => (error 404 "Transaction not found", s)
    | Some transaction =>
      if negb (bool_decide (t_clientId transaction = uid))
      then (error 403 "Not authorized to release this payment", s)
      else if negb (bool_decide (t_status transaction = T_PENDING))
      then (error 400 "Payment cannot be released", s)
      else settle id transaction T_RELEASED PAID
                  "Payment released to freelancer" "Failed to release payment" s
    end
  end.

(** POST /transactions/:id/refund (the [reason] of the body is validated
    but never read). *)
Definition refundPayment (token : option N) (id : N) (s : Store) : Response * Store :=
  match authenticateToken token s with
  | inl r => (r, s)
  | inr (uid, _) =>
    match transactions s !! id with
    | None => (error 404 "Transaction not found", s)
    | Some transaction =>
      if negb (bool_decide (t_clientId transaction = uid))
      then (error 403 "Not authorized to refund this payment", s)
      else if negb (bool_decide (t_status transaction = T_PENDING))
      then (error 400 "Payment cannot be refunded", s)
      else settle id transaction T_REFUNDED CANCELLED
                  "Refund processed" "Failed to process refund" s
    end
  end.

(** ** Review routes *)

(** [Math.round]: the nearest integer, a tie going up. *)
Definition Math_round (x : Q) : Z := Qfloor (x + (1 # 2)).

(** [userReviews.reduce((sum, r) => sum + r.rating, 0) / userReviews.length] *)
Definition averageRating (userReviews : list (N * Review)) : Q :=
  inject_Z (fold_left (λ sum kv, (sum + r_rating kv.2)%Z) userReviews 0%Z)
  / inject_Z (Z.of_nat (length userReviews)).

(** [Math.round(averageRating * 10) / 10] *)
Definition round1 (averageRating : Q) : Q :=
  inject_Z (Math_round (averageRating * 10)) / 10.

Definition reviews_of (revieweeId : N) (s : Store) : list (N * Review) :=
  findMany (λ _ r, bool_decide (r_revieweeId r = revieweeId)) (reviews s).

(** "Update user's average rating": re-read the reviewee's reviews and
    store the rounded average on the user row. *)
Definition recompute_rating (revieweeId : N) (s : Store) : option Store :=
  let userReviews := reviews_of revieweeId s in
  '(_, us) ← update revieweeId (set_u_rating (round1 (averageRating userReviews)))
                    (users s);
  Some (set_users us s).

Record CreateReviewReq := mkCreateReviewReq {
  cr_projectId : Id;
  cr_revieweeId : Id;
  cr_rating : Z;
  cr_comment : option string
}.

Definition rating_valid (r : Z) : bool := (1 <=? r)%Z && (r <=? 5)%Z.

Definition comment_valid (c : string) : bool := (String.length c <=? 1000)%nat.

Definition createReview_valid (req : CreateReviewReq) : bool :=
  rating_valid (cr_rating req) && opt_all comment_valid (cr_comment req).

Definition accepted_bid_of (pid fid : N) (_ : N) (b : Bid) : bool :=
  bool_decide (b_projectId b = pid) && bool_decide (b_status b = ACCEPTED)
  && bool_decide (b_freelancerId b = fid).

Definition same_review (pid reviewer reviewee : N) (_ : N) (r : Review) : bool :=
  bool_decide (r_projectId r = pid) && bool_decide (r_reviewerId r = reviewer)
  && bool_decide (r_revieweeId r = reviewee).

(** POST /reviews *)
Definition createReview (token : option N) (req : CreateReviewReq) (s : Store)
    : Response * Store :=
  match authenticateToken token s with
  | inl r => (r, s)
  | inr (uid, _) =>
    if negb (createReview_valid req) then (mkResponse 400 JErrors, s)
    else
      match projects s !! cr_projectId req with
      | None => (error 404 "Project not found", s)
      | Some project =>
        if negb (bool_decide (p_status project = PAID))
           && negb (bool_decide (p_status project = COMPLETED))
        then (error 400 "Project must be completed before reviewing", s)
        else
          let isClient := bool_decide (p_clientId project = uid) in
          let isFreelancer :=
            table_some (accepted_bid_of (cr_projectId req) uid) (bids s) in
          if negb isClient && negb isFreelancer
          then (error 403 "Not authorized to review this project", s)
          else if table_some (same_review (cr_projectId req) uid (cr_revieweeId req))
                             (reviews s)
          then (error 400 "You have already reviewed this user for this project", s)
          else
            let review := mkReview (cr_projectId req) uid (cr_revieweeId req)
                                   (cr_rating req) (cr_comment req) in
            match create_review review s with
            | None => (error 500 "Failed to create review", s)
            | Some (id, s1) =>
              match recompute_rating (cr_revieweeId req) s1 with
              | None => (error 500 "Failed to create review", s1)
              | Some s2 =>
                  (mkResponse 201 (JReview "Review created successfully" id review),
                   s2)
              end
            end
      end
  end.

Record UpdateReviewReq := mkUpdateReviewReq {
  ur_rating : option Z;
  ur_comment : option string
}.

Definition updateReview_valid (req : UpdateReviewReq) : bool :=
  opt_all rating_valid (ur_rating req) && opt_all comment_valid (ur_comment req).

(** [updateData] of the review: a rating that passed its validator is
    non-zero, hence truthy; the comment is written whenever it is defined. *)
Definition apply_review_update (req : UpdateReviewReq) (r : Review) : Review :=
  mkReview (r_projectId r) (r_reviewerId r) (r_revieweeId r)
           (default (r_rating r) (ur_rating req))
           (match ur_comment req with Some c => Some c | None => r_comment r end).

(** PUT /reviews/:id *)
Definition updateReview (token : option N) (id : N) (req : UpdateReviewReq)
    (s : Store) : Response * Store :=
  match authenticateToken token s with
  | inl r => (r, s)
  | inr (uid, _) =>
    if negb (updateReview_valid req) then (mkResponse 400 JErrors, s)
    else
      match reviews s !! id with
      | None => (error 404 "Review not found", s)
      | Some review =>
        if negb (bool_decide (r_reviewerId review = uid))
        then (error 403 "Not authorized to update this review", s)
        else
          match update id (apply_review_update req) (reviews s) with
          | None => (error 500 "Failed to update review", s)
          | Some (updatedReview, rs) =>
            let s1 := set_reviews rs s in
            let ok := mkResponse 200 (JReview "Review updated successfully" id
                                              updatedReview) in
            match ur_rating req with
            | None => (ok, s1)
            | Some _ =>
              match recompute_rating (r_revieweeId review) s1 with
              | None => (error 500 "Failed to update review", s1)
              | Some s2 => (ok, s2)
              end
            end
          end
      end
  end.

(** ** Account routes

    Password hashing and the issue of the session token are external and
    leave no trace in the modelled columns. *)

Record RegisterReq := mkRegisterReq {
  rg_name : string;
  rg_email : string;
  rg_password : string;
  rg_role : string;
  rg_languages : option (list string)
}.

(** The values admitted by [isIn(['CLIENT', 'FREELANCER'])]. *)
Definition parse_role (x : string) : option Role :=
  if bool_decide (x = "CLIENT") then Some CLIENT
  else if bool_decide (x = "FREELANCER") then Some FREELANCER
  else None.

Definition register_valid (req : RegisterReq) : bool :=
  (2 <=? String.length (rg_name req))%nat
  && (6 <=? String.length (rg_password req))%nat
  && bool_decide (is_Some (parse_role (rg_role req))).

(** POST /auth/register *)
Definition register (req : RegisterReq) (s : Store) : Response * Store :=
  match parse_role (rg_role req) with
  | None => (mkResponse 400 JErrors, s)
  | Some role =>
    if negb (register_valid req) then (mkResponse 400 JErrors, s)
    else
      (* const { ..., languages = [] } = req.body *)
      let languages := default [] (rg_languages req) in
      if table_some (λ _ u, bool_decide (u_email u = rg_email req)) (users s)
      then (error 400 "User already exists with this email", s)
      else
        let user :=
          mkUser (rg_name req) (rg_email req) role
                 (if bool_decide (rg_role req = "FREELANCER") then languages else [])
                 default_user_rating None in
        let '(id, s') := create_user user s in
        (mkResponse 201 (JUser "User registered successfully" id user), s')
  end.

Record UpdateProfileReq := mkUpdateProfileReq {
  pf_name : option string;
  (* the languages array of the body with the outcome of
     [JSON.parse(languages)], [None] when the parse throws *)
  pf_languages : option (option (list string));
  pf_file : option string
}.

Definition updateProfile_valid (req : UpdateProfileReq) : bool :=
  opt_all (λ x, (2 <=? String.length x)%nat) (pf_name req).

Definition apply_profile_update (name : option string) (languages : option (list string))
    (file : option string) (u : User) : User :=
  mkUser (default (u_name u) name) (u_email u) (u_role u)
         (default (u_languages u) languages) (u_rating u)
         (match file with Some f => Some f | None => u_profilePicture u end).

(** PUT /users/profile *)
Definition updateProfile (token : option N) (req : UpdateProfileReq) (s : Store)
    : Response * Store :=
  match authenticateToken token s with
  | inl r => (r, s)
  | inr (uid, u) =>
    if negb (updateProfile_valid req) then (mkResponse 400 JErrors, s)
    else
      let parsed : option (option (list string)) :=
        match pf_languages req with
        | Some parse =>
            if bool_decide (u_role u = FREELANCER)
            then match parse with Some l => Some (Some l) | None => None end
            else Some None
        | None => Some None
        end in
      match parsed with
      | None => (error 500 "Failed to update profile", s)
      | Some languages =>
        match update uid (apply_profile_update (pf_name req) languages (pf_file req))
                     (users s) with
        | Some (updatedUser, us) =>
            (mkResponse 200 (JUser "Profile updated successfully" uid updatedUser),
             set_users us s)
        | None => (error 500 "Failed to update profile", s)
        end
      end
  end.

(** ** The server as a transition system *)

Inductive Request :=
| PostRegister (req : RegisterReq)
| PutProfile (token : option N) (req : UpdateProfileReq)
| PostProject (token : option N) (req : CreateProjectReq)
| PutProject (token : option N) (id : N) (req : UpdateProjectReq)
| DeleteProject (token : option N) (id : N)
| PostBid (token : option N) (req : CreateBidReq)
| PutBidAccept (token : option N) (id : N)
| PutBidReject (token : option N) (id : N)
| PostPaymentIntent (token : option N) (req : CreateIntentReq)
| PostConfirmPayment (token : option N) (req : ConfirmPaymentReq)
| PostRelease (token : option N) (id : N)
| PostRefund (token : option N) (id : N)
| PostReview (token : option N) (req : CreateReviewReq)
| PutReview (token : option N) (id : N) (req : UpdateReviewReq).

Section Server.
(** The referential action of the schema on the foreign keys to a
    project. *)
Variable onDelete : ReferentialAction.

Definition handle (rq : Request) (s : Store) : Response * Store :=
  match rq with
  | PostRegister req => register req s
  | PutProfile token req => updateProfile token req s
  | PostProject token req => createProject token req s
  | PutProject token id req => updateProject token id req s
  | DeleteProject token id => deleteProject onDelete token id s
  | PostBid token req => createBid token req s
  | PutBidAccept token id => acceptBid token id s
  | PutBidReject token id => rejectBid token id s
  | PostPaymentIntent token req => createPaymentIntent token req s
  | PostConfirmPayment token req => confirmPayment token req s
  | PostRelease token id => releasePayment token id s
  | PostRefund token id => refundPayment token id s
  | PostReview token req => createReview token req s
  | PutReview token id req => updateReview token id req s
  end.

(** The store after serving the requests in order, from [s]. *)
Definition run (rqs : list Request) (s : Store) : Store :=
  fold_left (λ st rq, (handle rq st).2) rqs s.

(** A store is reachable when some sequence of requests leads to it
    from the empty store. *)
Definition reachable (s : Store) : Prop :=
  ∃ rqs, s = run rqs empty_store.
End Server.

(** * Predicates of the specification and of the proofs *)

(** Freelancer [fid] already has a bid on project [pid]. *)
Definition has_bid (s : Store) (pid fid : N) : Prop :=
  ∃ i b, bids s !! i = Some b ∧ b_projectId b = pid ∧ b_freelancerId b = fid.

(** The store a committed accept of bid [id] leaves. *)
Definition accepted_store (id : N) (bid : Bid) (project : Project) (s : Store)
    : Store :=
  mkStore (users s)
    (<[b_projectId bid := set_p_status IN_PROGRESS project]> (projects s))
    (updateMany (other_pending (b_projectId bid) id) (set_b_status REJECTED)
                (<[id := set_b_status ACCEPTED bid]> (bids s)))
    (<[next_id s := mkTransaction (b_projectId bid) (p_clientId project)
                      (b_freelancerId bid) (b_bidAmount bid) None T_PENDING]>
       (transactions s))
    (reviews s) (N.succ (next_id s)).

(** The store a release or refund of transaction [id] leaves when both
    of its writes went through. *)
Definition settled_store (id : N) (t : Transaction) (p : Project)
    (tst : TransactionStatus) (pst : ProjectStatus) (s : Store) : Store :=
  mkStore (users s) (<[t_projectId t := set_p_status pst p]> (projects s)) (bids s)
          (<[id := set_t_status tst t]> (transactions s)) (reviews s) (next_id s).

(** [settled token id s s']: the call of release or of refund with
    [token] on transaction [id] succeeded in [s] and left [s']. *)
Definition settled (token : option N) (id : N) (s s' : Store) : Prop :=
  (res_status (releasePayment token id s).1 = 200%nat
   ∧ s' = (releasePayment token id s).2)
  ∨ (res_status (refundPayment token id s).1 = 200%nat
     ∧ s' = (refundPayment token id s).2).

(** The reviews a user has received: the rows of the review table whose
    reviewee is the user, read off the table itself and not through the
    query of the routes. *)
Definition reviews_received (uid : N) (s : Store) : list (N * Review) :=
  filter (λ kv, r_revieweeId kv.2 = uid) (map_to_list (reviews s)).




(** [uid] is the freelancer of an ACCEPTED bid on project [pid]. *)
Definition accepted_bidder (s : Store) (pid uid : N) : Prop :=
  ∃ i b, bids s !! i = Some b ∧ b_projectId b = pid ∧ b_status b = ACCEPTED
         ∧ b_freelancerId b = uid.

(** A review with this project, reviewer and reviewee exists. *)
Definition reviewed (s : Store) (pid reviewer reviewee : N) : Prop :=
  ∃ i r, reviews s !! i = Some r ∧ r_projectId r = pid
         ∧ r_reviewerId r = reviewer ∧ r_revieweeId r = reviewee.

(** The routes that leave the three tables alone. *)
Definition core_unchanged (s s' : Store) : Prop :=
  projects s' = projects s ∧ bids s' = bids s
  ∧ transactions s' = transactions s ∧ (next_id s ≤ next_id s')%N.

(** The stores a release ([tst = T_RELEASED], [pst = PAID]) or a refund
    ([tst = T_REFUNDED], [pst = CANCELLED]) of transaction [id] may leave. *)
Definition settle_effect (id : N) (tst : TransactionStatus) (pst : ProjectStatus)
    (s s' : Store) : Prop :=
  s' = s
  ∨ ∃ t, transactions s !! id = Some t
         ∧ (s' = set_transactions (<[id := set_t_status tst t]> (transactions s)) s
            ∨ ∃ p, projects s !! t_projectId t = Some p
                   ∧ s' = settled_store id t p tst pst s).

(** The ids not yet issued are unused in the project and transaction
    tables. *)
Definition ids_fresh (s : Store) : Prop :=
  ∀ i, (next_id s ≤ i)%N → projects s !! i = None ∧ transactions s !! i = None.

(** Project [pid] is backed: it exists and some transaction row carries
    its id together with the id of its owner. *)
Definition backed (s : Store) (pid : N) : Prop :=
  ∃ p j t, projects s !! pid = Some p ∧ transactions s !! j = Some t
           ∧ t_projectId t = pid ∧ t_clientId t = p_clientId p.

(** Every accepted bid is on a backed project: the accept route created
    the transaction row in the same [$transaction]. *)
Definition escrow_backed (s : Store) : Prop :=
  ∀ i b, bids s !! i = Some b → b_status b = ACCEPTED → backed s (b_projectId b).

(** Two accepted bids on one project are the same row. *)
Definition single_accepted (s : Store) : Prop :=
  ∀ i1 i2 b1 b2,
    bids s !! i1 = Some b1 → bids s !! i2 = Some b2 →
    b_status b1 = ACCEPTED → b_status b2 = ACCEPTED →
    b_projectId b1 = b_projectId b2 → i1 = i2.

(** The invariant of the reachable stores. *)
Record invariant (s : Store) : Prop := mkInvariant {
  inv_fresh : ids_fresh s;
  inv_backed : escrow_backed s;
  inv_single : single_accepted s
}.

(** [s'] keeps the projects of [s] with their owners and the transactions
    of [s] with their project and client. *)
Definition backing_preserved (s s' : Store) : Prop :=
  (∀ i p, projects s !! i = Some p →
     ∃ p', projects s' !! i = Some p' ∧ p_clientId p' = p_clientId p)
  ∧ (∀ j t, transactions s !! j = Some t →
       ∃ t', transactions s' !! j = Some t'
             ∧ t_projectId t' = t_projectId t ∧ t_clientId t' = t_clientId t).

(** The accepted bids of [s'] are accepted bids of [s]. *)
Definition accepted_among (s s' : Store) : Prop :=
  ∀ i b', bids s' !! i = Some b' → b_status b' = ACCEPTED →
    ∃ b, bids s !! i = Some b ∧ b_status b = ACCEPTED
         ∧ b_projectId b = b_projectId b'.

(** ** The writes of the routes *)

(** The store after the reviews have become [rs] and the rating of the
    reviewee [uid], whose row was [u], has been recomputed from them. *)
Definition rated_store (uid : N) (u : User) (rs : gmap N Review) (next : N)
    (s : Store) : Store :=
  mkStore
    (<[uid := set_u_rating
                (round1 (averageRating
                   (findMany (λ _ r, bool_decide (r_revieweeId r = uid)) rs))) u]>
       (users s))
    (projects s) (bids s) (transactions s) rs next.

(** [effect onDelete s s']: the stores [s'] a request served in [s] may
    leave, route by route, with what the route has checked before it
    writes. *)
Inductive effect (onDelete : ReferentialAction) (s : Store) : Store → Prop :=
| eff_none : effect onDelete s s
| eff_register u :
    table_some (λ _ u0, bool_decide (u_email u0 = u_email u)) (users s) = false →
    u_rating u = default_user_rating →
    (u_role u = CLIENT → u_languages u = []) →
    effect onDelete s (bump_id (set_users (<[next_id s := u]> (users s)) s))
| eff_profile uid u name languages file :
    users s !! uid = Some u →
    (u_role u ≠ FREELANCER → languages = None) →
    effect onDelete s
      (set_users (<[uid := apply_profile_update name languages file u]> (users s)) s)
| eff_create_project p u :
    users s !! p_clientId p = Some u →
    u_role u = CLIENT →
    p_status p = POSTED →
    effect onDelete s (bump_id (set_projects (<[next_id s := p]> (projects s)) s))
| eff_update_project id p req :
    projects s !! id = Some p →
    effect onDelete s
      (set_projects (<[id := apply_project_update req p]> (projects s)) s)
| eff_delete_restrict id :
    onDelete = Restrict →
    is_Some (projects s !! id) →
    references_project s id = false →
    effect onDelete s (set_projects (delete id (projects s)) s)
| eff_delete_cascade id :
    onDelete = Cascade →
    is_Some (projects s !! id) →
    effect onDelete s
      (mkStore (users s) (delete id (projects s))
         (deleteMany (λ _ b, bool_decide (b_projectId b = id)) (bids s))
         (deleteMany (λ _ t, bool_decide (t_projectId t = id)) (transactions s))
         (deleteMany (λ _ r, bool_decide (r_projectId r = id)) (reviews s))
         (next_id s))
| eff_create_bid b p :
    projects s !! b_projectId b = Some p →
    is_Some (users s !! b_freelancerId b) →
    p_status p = POSTED →
    p_clientId p ≠ b_freelancerId b →
    table_some (bid_of (b_projectId b) (b_freelancerId b)) (bids s) = false →
    b_status b = PENDING →
    effect onDelete s (bump_id (set_bids (<[next_id s := b]> (bids s)) s))
| eff_accept id bid project :
    bids s !! id = Some bid →
    projects s !! b_projectId bid = Some project →
    p_status project = POSTED →
    table_some (same_project_client (b_projectId bid) (p_clientId project))
               (transactions s) = false →
    effect onDelete s (accepted_store id bid project s)
| eff_reject id b :
    bids s !! id = Some b →
    b_status b = PENDING →
    effect onDelete s (set_bids (<[id := set_b_status REJECTED b]> (bids s)) s)
| eff_confirm_update tid t paymentIntentId :
    transactions s !! tid = Some t →
    effect onDelete s
      (set_transactions (<[tid := confirm_update paymentIntentId t]> (transactions s)) s)
| eff_confirm_create t :
    table_some (same_project_client (t_projectId t) (t_clientId t))
               (transactions s) = false →
    t_status t = T_PENDING →
    effect onDelete s
      (bump_id (set_transactions (<[next_id s := t]> (transactions s)) s))
| eff_settle_transaction id t tst :
    transactions s !! id = Some t →
    t_status t = T_PENDING →
    projects s !! t_projectId t = None →
    effect onDelete s
      (set_transactions (<[id := set_t_status tst t]> (transactions s)) s)
| eff_settle id t p tst pst :
    transactions s !! id = Some t →
    t_status t = T_PENDING →
    projects s !! t_projectId t = Some p →
    effect onDelete s (settled_store id t p tst pst s)
| eff_create_review r u :
    rating_valid (r_rating r) = true →
    users s !! r_revieweeId r = Some u →
    effect onDelete s
      (rated_store (r_revieweeId r) u (<[next_id s := r]> (reviews s))
                   (N.succ (next_id s)) s)
| eff_update_review id r req :
    reviews s !! id = Some r →
    updateReview_valid req = true →
    ur_rating req = None ∨ users s !! r_revieweeId r = None →
    effect onDelete s
      (set_reviews (<[id := apply_review_update req r]> (reviews s)) s)
| eff_update_review_rating id r req u :
    reviews s !! id = Some r →
    updateReview_valid req = true →
    users s !! r_revieweeId r = Some u →
    effect onDelete s
      (rated_store (r_revieweeId r) u
                   (<[id := apply_review_update req r]> (reviews s)) (next_id s) s).

(** The ids not yet issued are unused in every table. *)
Definition all_fresh (s : Store) : Prop :=
  ∀ i, (next_id s ≤ i)%N →
    users s !! i = None ∧ projects s !! i = None ∧ bids s !! i = None
    ∧ transactions s !! i = None ∧ reviews s !! i = None.

(** The owner of every project is an account with the role CLIENT. *)
Definition owners_are_clients (s : Store) : Prop :=
  ∀ i p, projects s !! i = Some p →
    ∃ u, users s !! p_clientId p = Some u ∧ u_role u = CLIENT.

(** * Scenarios *)

(** A client who registers with a list of languages. *)
Definition register_languages_example : RegisterReq :=
  mkRegisterReq "Carol" "carol@example.com" "password123" "CLIENT"
                (Some ["Spanish"; "French"]).

(** The scenario of the specification: a client (id 0) and two
    freelancers (ids 1 and 2) register, the client posts a project with
    budget 500 (id 3), and the freelancers bid 450 (bid 4) and 480
    (bid 5). *)
Definition market_setup : list Request :=
  [ PostRegister (mkRegisterReq "Carol" "carol@example.com" "password123"
                                "CLIENT" None);
    PostRegister (mkRegisterReq "Alice" "alice@example.com" "password123"
                                "FREELANCER" (Some ["Spanish"; "French"]));
    PostRegister (mkRegisterReq "Bob" "bob@example.com" "password123"
                                "FREELANCER" (Some ["German"]));
    PostProject (Some 0%N)
      (mkCreateProjectReq "User manual" "Translate the user manual to French"
                          "English" "French" 500 None []) ].

Definition bid_450 : CreateBidReq := mkCreateBidReq 3%N 450 "2 days".
Definition bid_480 : CreateBidReq := mkCreateBidReq 3%N 480 "3 days".

Definition market_open : Store := run Restrict market_setup empty_store.

Definition market_bids : Store :=
  run Restrict [PostBid (Some 1%N) bid_450; PostBid (Some 2%N) bid_480] market_open.

Definition carol : User :=
  mkUser "Carol" "carol@example.com" CLIENT [] 0 None.

Definition alice : User :=
  mkUser "Alice" "alice@example.com" FREELANCER ["Spanish"; "French"] 0 None.

Definition user_manual : Project :=
  mkProject 0%N "User manual" "Translate the user manual to French"
            "English" "French" 500 None [] POSTED.

Definition bid_of_alice : Bid := mkBid 3%N 1%N 450 "2 days" PENDING.

Definition market_accepted : Store := (acceptBid (Some 0%N) 4%N market_bids).2.

(** The scenario continued after the acceptance: the client releases the
    escrow (transaction 6), confirms a payment that Stripe reports as
    succeeded for the same project, and then asks for a refund. *)
Definition confirm_again : ConfirmPaymentReq :=
  mkConfirmPaymentReq "pi_2" 3%N 1%N
                      (Some (mkPaymentIntent "pi_2" "succeeded" 45000)).

Definition market_released : Store :=
  (releasePayment (Some 0%N) 6%N market_accepted).2.

Definition market_reopened : Store :=
  (confirmPayment (Some 0%N) confirm_again market_released).2.

(** The same as a sequence of requests from the empty store. *)
Definition refund_after_release : list Request :=
  (market_setup
   ++ [ PostBid (Some 1%N) bid_450; PostBid (Some 2%N) bid_480;
        PutBidAccept (Some 0%N) 4%N;
        PostRelease (Some 0%N) 6%N;
        PostConfirmPayment (Some 0%N) confirm_again;
        PostRefund (Some 0%N) 6%N ])%list.

(** Three completed projects of one client (id 0), who rates the same
    translator (id 1) 5, 4 and then 5. *)
Definition three_projects : list Request :=
  let post title :=
    PostProject (Some 0%N)
      (mkCreateProjectReq title "Translate the user manual to French"
                          "English" "French" 500 None []) in
  let complete id :=
    PutProject (Some 0%N) id
      (mkUpdateProjectReq None None None None (Some "COMPLETED")) in
  [ PostRegister (mkRegisterReq "Carol" "carol@example.com" "password123"
                                "CLIENT" None);
    PostRegister (mkRegisterReq "Alice" "alice@example.com" "password123"
                                "FREELANCER" (Some ["French"]));
    post "Manual, part one"; post "Manual, part two"; post "Manual, part three";
    complete 2%N; complete 3%N; complete 4%N ].

Definition two_reviews : Store :=
  run Restrict
    (three_projects
     ++ [ PostReview (Some 0%N) (mkCreateReviewReq 2%N 1%N 5 None);
          PostReview (Some 0%N) (mkCreateReviewReq 3%N 1%N 4 None) ])
    empty_store.


Definition bob : User :=
  mkUser "Bob" "bob@example.com" FREELANCER ["German"] 0 None.

Definition two_reviews_project : Project :=
  mkProject 0%N "Manual, part one" "Translate the user manual to French"
            "English" "French" 500 None [] COMPLETED.

(** A project update that only names a status. *)
Definition set_status_req (x : string) : UpdateProjectReq :=
  mkUpdateProjectReq None None None None (Some x).

(** The scenario continued: the owner accepts the bid of 450, sets the
    project back to POSTED and tries to accept the bid of 480. *)
Definition accept_twice : list Request :=
  market_setup
  ++ [ PostBid (Some 1%N) bid_450; PostBid (Some 2%N) bid_480;
       PutBidAccept (Some 0%N) 4%N;
       PutProject (Some 0%N) 3%N (set_status_req "POSTED");
       PutBidAccept (Some 0%N) 5%N ].

(** * Properties *)

(** ** The tables *)

Section TableFacts.
Context {A : Type}.
Implicit Types (m : gmap N A) (P : N → A → bool).

Lemma table_some_true P m :
  table_some P m = true ↔ ∃ i r, m !! i = Some r ∧ P i r = true.
Proof.
  unfold table_some. rewrite existsb_exists. split.
  - intros [[i r] [Hin HP]]. exists i, r. split; [|done].
    by apply elem_of_map_to_list, list_elem_of_In.
  - intros (i & r & Hl & HP). exists (i, r). split; [|done].
    by apply list_elem_of_In, elem_of_map_to_list.
Qed.

Lemma table_some_false P m :
  table_some P m = false ↔ ∀ i r, m !! i = Some r → P i r = false.
Proof.
  split.
  - intros Hf i r Hl. destruct (P i r) eqn:HP; [|done].
    assert (table_some P m = true) by (apply table_some_true; eauto).
    congruence.
  - intros Hall. destruct (table_some P m) eqn:Hs; [|done].
    apply table_some_true in Hs as (i & r & Hl & HP).
    rewrite (Hall i r Hl) in HP. done.
Qed.

Lemma find_row_Some P m i r :
  find_row P m = Some (i, r) → m !! i = Some r ∧ P i r = true.
Proof.
  unfold find_row. intros Hf. apply find_some in Hf as [Hin HP].
  split; [|done]. by apply elem_of_map_to_list, list_elem_of_In.
Qed.

Lemma find_row_None P m :
  find_row P m = None → table_some P m = false.
Proof.
  unfold find_row. intros Hf. apply table_some_false. intros i r Hl.
  apply (find_none _ _ Hf (i, r)).
  by apply list_elem_of_In, elem_of_map_to_list.
Qed.

Lemma lookup_updateMany P (f : A → A) m i :
  updateMany P f m !! i = (λ r, if P i r then f r else r) <$> m !! i.
Proof.
  unfold updateMany. rewrite map_lookup_imap. by destruct (m !! i).
Qed.

Lemma lookup_deleteMany_Some P m i r :
  deleteMany P m !! i = Some r ↔ m !! i = Some r ∧ P i r = false.
Proof. unfold deleteMany. by rewrite map_lookup_filter_Some. Qed.

Lemma update_Some (f : A → A) m i r' m' :
  update i f m = Some (r', m') →
  ∃ r, m !! i = Some r ∧ r' = f r ∧ m' = <[i := f r]> m.
Proof.
  unfold update. destruct (m !! i) as [r|]; [|done].
  intros [= <- <-]. eauto.
Qed.

Lemma update_lookup (f : A → A) m i r :
  m !! i = Some r → update i f m = Some (f r, <[i := f r]> m).
Proof. unfold update. by intros ->. Qed.

Lemma has_row_true m i : has_row m i = true ↔ is_Some (m !! i).
Proof.
  unfold has_row. destruct (m !! i) as [r|].
  - split; [by eauto | done].
  - split; [done | by intros [r Hr]].
Qed.
End TableFacts.

(** ** Registration *)

(** C10: a successful registration stores the account it returns; with
    role CLIENT the stored languages are empty whatever the request
    supplied, and with role FREELANCER they are the supplied languages
    (none when the request has no languages field). *)
Theorem register_languages (req : RegisterReq) (s s' : Store) (resp : Response) :
  register req s = (resp, s') →
  res_status resp = 201%nat →
  ∃ id user,
    res_json resp = JUser "User registered successfully" id user
    ∧ users s' !! id = Some user
    ∧ parse_role (rg_role req) = Some (u_role user)
    ∧ (u_role user = CLIENT → u_languages user = [])
    ∧ (u_role user = FREELANCER →
       u_languages user = default [] (rg_languages req)).
Proof.
  unfold register, create_user, error. intros Hreg Hok.
  destruct (parse_role (rg_role req)) as [role|] eqn:Hrole;
    [|by simplify_eq/=].
  destruct (negb (register_valid req)); [by simplify_eq/=|].
  destruct (table_some _ (users s)); [by simplify_eq/=|].
  simplify_eq/=. eexists _, _. split; [done|].
  split; [by rewrite lookup_insert_eq|]. split; [done|].
  unfold parse_role in Hrole.
  repeat case_bool_decide; simplify_eq/=; split; intros; congruence.
Qed.

Lemma register_languages_witness :
  ∃ id user,
    res_json (register register_languages_example empty_store).1
      = JUser "User registered successfully" id user
    ∧ users (register register_languages_example empty_store).2 !! id = Some user
    ∧ parse_role (rg_role register_languages_example) = Some (u_role user)
    ∧ (u_role user = CLIENT → u_languages user = [])
    ∧ (u_role user = FREELANCER →
       u_languages user = default [] (rg_languages register_languages_example)).
Proof.
  apply (register_languages register_languages_example empty_store
           (register register_languages_example empty_store).2
           (register register_languages_example empty_store).1).
  - vm_compute. reflexivity.
  - vm_compute. reflexivity.
Defined.

(** ** Bid submission *)

Lemma has_bid_spec s pid fid :
  table_some (bid_of pid fid) (bids s) = true ↔ has_bid s pid fid.
Proof.
  rewrite table_some_true. unfold has_bid, bid_of.
  split; intros (i & b & Hl & H); exists i, b; (split; [done|]).
  - apply andb_true_iff in H as [H1 H2].
    by apply bool_decide_eq_true in H1, H2.
  - destruct H as [-> ->]. by rewrite !bool_decide_eq_true_2.
Qed.

Lemma requireRole_single role u : u_role u = role → requireRole [role] u = true.
Proof. intros <-. unfold requireRole. simpl. by rewrite bool_decide_eq_true_2. Qed.

Lemma requireRole_other role u : u_role u ≠ role → requireRole [role] u = false.
Proof.
  intros Hne. unfold requireRole. simpl.
  rewrite bool_decide_eq_false_2; [done|]. congruence.
Qed.

(** C3, as stated, fails: the route lets only freelancers through. In the
    scenario's store the owner of project 3, a client, submits a
    well-formed bid on her own POSTED project: the answer is Forbidden
    (403), not the Conflict (400) the claim gives for the owner, and
    nothing is written. *)
Lemma createBid_owner_counterexample :
  users market_open !! 0%N = Some carol
  ∧ createBid_valid bid_450 = true
  ∧ projects market_open !! cb_projectId bid_450 = Some user_manual
  ∧ p_clientId user_manual = 0%N
  ∧ createBid (Some 0%N) bid_450 market_open
    = (error 403 "Forbidden", market_open)
  ∧ res_status (createBid (Some 0%N) bid_450 market_open).1 ≠ 400%nat.
Proof.
  assert (H : createBid (Some 0%N) bid_450 market_open
              = (error 403 "Forbidden", market_open))
    by (vm_compute; reflexivity).
  split; [vm_compute; reflexivity|]. split; [vm_compute; reflexivity|].
  split; [vm_compute; reflexivity|]. split; [reflexivity|].
  split; [exact H|]. rewrite H. discriminate.
Qed.

(** C3, amended: for an authenticated caller, a well-formed body and an
    existing project, a bid submission by a caller whose role is not
    FREELANCER fails with Forbidden (403, store unchanged); for a
    freelancer it fails with the Conflict error (400, an error message,
    store unchanged) when the project is not POSTED, or the caller owns
    the project, or the caller already has a bid on it; otherwise it
    succeeds (201) and returns the new bid, stored with status PENDING. *)
Theorem createBid_guards (uid : N) (u : User) (req : CreateBidReq)
    (project : Project) (s : Store) :
  users s !! uid = Some u →
  createBid_valid req = true →
  projects s !! cb_projectId req = Some project →
  let r := createBid (Some uid) req s in
  let conflict :=
    p_status project ≠ POSTED ∨ p_clientId project = uid
    ∨ has_bid s (cb_projectId req) uid in
  (u_role u ≠ FREELANCER → r = (error 403 "Forbidden", s))
  ∧ (u_role u = FREELANCER → conflict →
     res_status r.1 = 400%nat ∧ (∃ msg, res_json r.1 = JError msg) ∧ r.2 = s)
  ∧ (u_role u = FREELANCER → ¬ conflict →
     res_status r.1 = 201%nat
     ∧ ∃ id bid,
         res_json r.1 = JBid "Bid submitted successfully" id bid
         ∧ b_status bid = PENDING
         ∧ b_projectId bid = cb_projectId req
         ∧ b_freelancerId bid = uid
         ∧ b_bidAmount bid = cb_bidAmount req
         ∧ bids r.2 !! id = Some bid).
Proof.
  intros Hu Hvalid Hp. unfold createBid, authenticateToken. rewrite Hu.
  destruct (decide (u_role u = FREELANCER)) as [Hrole|Hrole].
  2:{ rewrite (requireRole_other FREELANCER u Hrole). simpl.
      split; [done|]. split; intros Hfree; by destruct Hrole. }
  rewrite (requireRole_single FREELANCER u Hrole), Hvalid, Hp. simpl.
  split; [intros Hne; by destruct Hne|].
  destruct (decide (p_status project = POSTED)) as [Hst|Hst].
  2:{ rewrite bool_decide_eq_false_2 by done. simpl. split; [eauto|].
      intros _ Hn. destruct Hn. by left. }
  rewrite bool_decide_eq_true_2 by done. simpl.
  destruct (decide (p_clientId project = uid)) as [Hown|Hown].
  { rewrite bool_decide_eq_true_2 by done. simpl. split; [eauto|].
    intros _ Hn. destruct Hn. right. by left. }
  rewrite bool_decide_eq_false_2 by done.
  destruct (table_some (bid_of (cb_projectId req) uid) (bids s)) eqn:Hbid.
  { apply has_bid_spec in Hbid. simpl. split; [eauto|].
    intros _ Hn. destruct Hn. right. by right. }
  unfold create_bid. simpl.
  assert (Hrows : has_row (projects s) (cb_projectId req)
                  && has_row (users s) uid = true).
  { apply andb_true_iff. split; apply has_row_true; eauto. }
  rewrite Hrows. simpl. split.
  - intros _ [Hc|[Hc|Hc]]; [done..|].
    apply has_bid_spec in Hc. congruence.
  - intros _ _. split; [done|]. eexists _, _. split; [done|].
    repeat split; try done. by rewrite lookup_insert_eq.
Qed.

(** ** Bid acceptance *)

(** C4: for an authenticated caller and an existing bid, the accept route
    answers Forbidden (403) when the caller does not own the bid's
    project, and, for the owner, Conflict (400) when the project is not
    POSTED; both answers leave the whole store as it was. *)
Theorem acceptBid_rejections (uid : N) (u : User) (id : N) (bid : Bid)
    (project : Project) (s : Store) :
  users s !! uid = Some u →
  bids s !! id = Some bid →
  projects s !! b_projectId bid = Some project →
  (p_clientId project ≠ uid →
     acceptBid (Some uid) id s
     = (error 403 "Not authorized to accept this bid", s))
  ∧ (p_clientId project = uid → p_status project ≠ POSTED →
     acceptBid (Some uid) id s
     = (error 400 "Project is no longer accepting bids", s)).
Proof.
  intros Hu Hb Hp. unfold acceptBid, authenticateToken.
  rewrite Hu, Hb, Hp. split.
  - intros Hown. by rewrite bool_decide_eq_false_2.
  - intros Hown Hst. rewrite bool_decide_eq_true_2 by done. simpl.
    by rewrite bool_decide_eq_false_2.
Qed.

Lemma other_pending_true pid id i b :
  other_pending pid id i b = true ↔
  b_projectId b = pid ∧ i ≠ id ∧ b_status b = PENDING.
Proof.
  unfold other_pending. rewrite !andb_true_iff, negb_true_iff.
  rewrite !bool_decide_eq_true, bool_decide_eq_false. tauto.
Qed.

Lemma create_transaction_Some t s tid s' :
  create_transaction t s = Some (tid, s') →
  tid = next_id s
  ∧ s' = bump_id (set_transactions (<[next_id s := t]> (transactions s)) s)
  ∧ is_Some (projects s !! t_projectId t)
  ∧ table_some (same_project_client (t_projectId t) (t_clientId t))
               (transactions s) = false.
Proof.
  unfold create_transaction. intros H. case_match eqn:Hc; [|done].
  simplify_eq. rewrite !andb_true_iff, negb_true_iff in Hc.
  destruct Hc as [[[Hp _] _] Hu]. by rewrite has_row_true in Hp.
Qed.

(** The effect of a committed [$transaction] of the accept route. *)
Lemma accept_writes_Some id bid project s ab tx s' :
  bids s !! id = Some bid →
  projects s !! b_projectId bid = Some project →
  accept_writes id bid project s = Some ((ab, tx), s') →
  let t := mkTransaction (b_projectId bid) (p_clientId project)
             (b_freelancerId bid) (b_bidAmount bid) None T_PENDING in
  ab = (id, set_b_status ACCEPTED bid)
  ∧ tx = (next_id s, t)
  ∧ table_some (same_project_client (b_projectId bid) (p_clientId project))
               (transactions s) = false
  ∧ s' = mkStore (users s)
           (<[b_projectId bid := set_p_status IN_PROGRESS project]> (projects s))
           (updateMany (other_pending (b_projectId bid) id) (set_b_status REJECTED)
                       (<[id := set_b_status ACCEPTED bid]> (bids s)))
           (<[next_id s := t]> (transactions s))
           (reviews s) (N.succ (next_id s)).
Proof.
  intros Hb Hp. unfold accept_writes.
  rewrite (update_lookup _ _ _ _ Hb). simpl.
  rewrite (update_lookup _ _ _ _ Hp). simpl.
  intros H. destruct (create_transaction _ _) as [[tid s4]|] eqn:Hc; [|done].
  simpl in H. simplify_eq.
  apply create_transaction_Some in Hc as (-> & -> & _ & Hu). simpl in *.
  done.
Qed.

(** The accept route either fails and leaves the store alone, or commits
    the four writes at once. *)
Lemma acceptBid_cases token id s :
  (res_status (acceptBid token id s).1 ≠ 200%nat ∧ (acceptBid token id s).2 = s)
  ∨ ∃ uid bid project,
      token = Some uid
      ∧ bids s !! id = Some bid
      ∧ projects s !! b_projectId bid = Some project
      ∧ p_clientId project = uid
      ∧ p_status project = POSTED
      ∧ table_some (same_project_client (b_projectId bid) (p_clientId project))
                   (transactions s) = false
      ∧ acceptBid token id s
        = (mkResponse 200
             (JBidTransaction "Bid accepted successfully"
                (id, set_b_status ACCEPTED bid)
                (next_id s,
                 mkTransaction (b_projectId bid) (p_clientId project)
                   (b_freelancerId bid) (b_bidAmount bid) None T_PENDING)),
           accepted_store id bid project s).
Proof.
  unfold acceptBid, authenticateToken, error.
  destruct token as [uid|]; [|left; done].
  destruct (users s !! uid) as [u|]; [|left; done].
  destruct (bids s !! id) as [bid|] eqn:Hb; [|left; done].
  destruct (projects s !! b_projectId bid) as [project|] eqn:Hp; [|left; done].
  destruct (decide (p_clientId project = uid)) as [Hown|Hown];
    [rewrite bool_decide_eq_true_2 by done
    |rewrite bool_decide_eq_false_2 by done; left; done].
  destruct (decide (p_status project = POSTED)) as [Hst|Hst];
    [rewrite bool_decide_eq_true_2 by done
    |rewrite bool_decide_eq_false_2 by done; left; done].
  simpl. unfold prisma_transaction.
  destruct (accept_writes id bid project s) as [[[ab tx] s']|] eqn:Hw;
    [|left; done].
  apply accept_writes_Some in Hw as (-> & -> & Hu & ->); [|done..].
  right. exists uid, bid, project. done.
Qed.

(** C1: a successful accept (200) performs the four writes together: the
    target bid becomes ACCEPTED, its project IN_PROGRESS, every other
    PENDING bid of the project REJECTED (no other bid, project, user or
    review changes), and exactly one transaction row is added, PENDING,
    for the amount of the accepted bid; an accept that does not succeed
    leaves the store exactly as it was, so the writes commit all or none. *)
Theorem acceptBid_atomic (token : option N) (id : N) (s s' : Store)
    (resp : Response) :
  acceptBid token id s = (resp, s') →
  transactions s !! next_id s = None →
  (res_status resp = 200%nat →
     ∃ bid project tid t,
       bids s !! id = Some bid
       ∧ projects s !! b_projectId bid = Some project
       ∧ res_json resp = JBidTransaction "Bid accepted successfully"
                           (id, set_b_status ACCEPTED bid) (tid, t)
       ∧ bids s' !! id = Some (set_b_status ACCEPTED bid)
       ∧ projects s' = <[b_projectId bid := set_p_status IN_PROGRESS project]>
                         (projects s)
       ∧ (∀ i b, i ≠ id → bids s !! i = Some b →
            b_projectId b = b_projectId bid → b_status b = PENDING →
            bids s' !! i = Some (set_b_status REJECTED b))
       ∧ (∀ i, i ≠ id →
            (∀ b, bids s !! i = Some b →
               ¬ (b_projectId b = b_projectId bid ∧ b_status b = PENDING)) →
            bids s' !! i = bids s !! i)
       ∧ transactions s !! tid = None
       ∧ transactions s' = <[tid := t]> (transactions s)
       ∧ t_status t = T_PENDING
       ∧ t_amount t = b_bidAmount bid
       ∧ t_projectId t = b_projectId bid
       ∧ t_clientId t = p_clientId project
       ∧ t_freelancerId t = b_freelancerId bid
       ∧ users s' = users s
       ∧ reviews s' = reviews s)
  ∧ (res_status resp ≠ 200%nat → s' = s).
Proof.
  intros Hacc Hfresh.
  destruct (acceptBid_cases token id s)
    as [[Hne Hsame]|(uid & bid & project & -> & Hb & Hp & Hown & Hst & Hu & Heq)].
  - rewrite Hacc in Hne, Hsame. simpl in *. split; [done|]. by intros _.
  - rewrite Heq in Hacc. simplify_eq/=. split; [|done]. intros _.
    exists bid, project, (next_id s), (mkTransaction (b_projectId bid)
      (p_clientId project) (b_freelancerId bid) (b_bidAmount bid) None T_PENDING).
    repeat (split; [done|]).
    split.
    { rewrite lookup_updateMany, lookup_insert_eq. simpl.
      unfold other_pending. rewrite (bool_decide_eq_true_2 (id = id)) by done.
      by rewrite andb_false_r. }
    split; [done|]. split.
    { intros i b Hi Hl Hpid Hpend.
      rewrite lookup_updateMany, lookup_insert_ne, Hl by done. simpl.
      by rewrite (proj2 (other_pending_true _ _ _ _)). }
    split.
    { intros i Hi Hnot.
      rewrite lookup_updateMany, lookup_insert_ne by done.
      destruct (bids s !! i) as [b|] eqn:Hl; [|done]. simpl.
      destruct (other_pending (b_projectId bid) id i b) eqn:Ho; [|done].
      apply other_pending_true in Ho as (? & ? & ?).
      destruct (Hnot b eq_refl). done. }
    done.
Qed.

Lemma createBid_guards_witness :
  createBid (Some 0%N) bid_450 market_open = (error 403 "Forbidden", market_open)
  ∧ (res_status (createBid (Some 1%N) bid_450 market_bids).1 = 400%nat
     ∧ (∃ msg, res_json (createBid (Some 1%N) bid_450 market_bids).1 = JError msg)
     ∧ (createBid (Some 1%N) bid_450 market_bids).2 = market_bids)
  ∧ (res_status (createBid (Some 1%N) bid_450 market_open).1 = 201%nat
     ∧ ∃ id bid,
         res_json (createBid (Some 1%N) bid_450 market_open).1
           = JBid "Bid submitted successfully" id bid
         ∧ b_status bid = PENDING
         ∧ b_projectId bid = cb_projectId bid_450
         ∧ b_freelancerId bid = 1%N
         ∧ b_bidAmount bid = cb_bidAmount bid_450
         ∧ bids (createBid (Some 1%N) bid_450 market_open).2 !! id = Some bid).
Proof.
  split; [|split].
  - destruct (createBid_guards 0%N carol bid_450 user_manual market_open)
      as (Hforbidden & _ & _).
    + vm_compute. reflexivity.
    + vm_compute. reflexivity.
    + vm_compute. reflexivity.
    + apply Hforbidden. discriminate.
  - destruct (createBid_guards 1%N alice bid_450 user_manual market_bids)
      as (_ & Hconflict & _).
    + vm_compute. reflexivity.
    + vm_compute. reflexivity.
    + vm_compute. reflexivity.
    + apply Hconflict; [reflexivity|]. right. right.
      exists 4%N, bid_of_alice. split; [|split]; vm_compute; reflexivity.
  - destruct (createBid_guards 1%N alice bid_450 user_manual market_open)
      as (_ & _ & Hok).
    + vm_compute. reflexivity.
    + vm_compute. reflexivity.
    + vm_compute. reflexivity.
    + apply Hok; [reflexivity|]. intros [Hst|[Hown|(i & b & Hl & _)]].
      * apply Hst. reflexivity.
      * discriminate Hown.
      * vm_compute in Hl. discriminate Hl.
Defined.

Lemma acceptBid_rejections_witness :
  acceptBid (Some 1%N) 4%N market_bids
  = (error 403 "Not authorized to accept this bid", market_bids).
Proof.
  destruct (acceptBid_rejections 1%N alice 4%N bid_of_alice user_manual market_bids)
    as [Hforbidden _].
  - vm_compute. reflexivity.
  - vm_compute. reflexivity.
  - vm_compute. reflexivity.
  - apply Hforbidden. simpl. discriminate.
Defined.

Lemma acceptBid_atomic_witness :
  let r := acceptBid (Some 0%N) 4%N market_bids in
  b_status <$> bids r.2 !! 4%N = Some ACCEPTED
  ∧ b_status <$> bids r.2 !! 5%N = Some REJECTED
  ∧ p_status <$> projects r.2 !! 3%N = Some IN_PROGRESS
  ∧ ∃ tid t,
      transactions market_bids !! tid = None
      ∧ transactions r.2 = <[tid := t]> (transactions market_bids)
      ∧ t_status t = T_PENDING
      ∧ t_amount t = 450%Q.
Proof.
  intros r.
  destruct (acceptBid_atomic (Some 0%N) 4%N market_bids r.2 r.1) as [Hok _].
  - unfold r. symmetry. apply surjective_pairing.
  - vm_compute. reflexivity.
  - destruct Hok
      as (bid & project & tid & t & Hb & Hp & _ & Ha & Hpr & Hrej & _
          & Hnone & Htx & Hst & Hamt & _).
    { vm_compute. reflexivity. }
    vm_compute in Hb. injection Hb as <-.
    vm_compute in Hp. injection Hp as <-.
    split; [by rewrite Ha|]. split.
    { rewrite (Hrej 5%N (mkBid 3%N 2%N 480 "3 days" PENDING)).
      - reflexivity.
      - discriminate.
      - vm_compute. reflexivity.
      - reflexivity.
      - reflexivity. }
    split; [rewrite Hpr; reflexivity|].
    exists tid, t. repeat split; assumption.
Defined.

(** ** Escrow release and refund *)

(** What the two writes of [settle] do, once the guards have passed. *)
Lemma settle_cases id t tst pst ok failed s :
  transactions s !! id = Some t →
  (∃ p, projects s !! t_projectId t = Some p
        ∧ settle id t tst pst ok failed s
          = (mkResponse 200 (JTransaction ok id (set_t_status tst t)),
             settled_store id t p tst pst s))
  ∨ (projects s !! t_projectId t = None
     ∧ settle id t tst pst ok failed s
       = (error 500 failed,
          set_transactions (<[id := set_t_status tst t]> (transactions s)) s)).
Proof.
  intros Ht. unfold settle. rewrite (update_lookup _ _ _ _ Ht). simpl.
  destruct (projects s !! t_projectId t) as [p|] eqn:Hp.
  - left. exists p. split; [done|]. by rewrite (update_lookup _ _ _ _ Hp).
  - right. split; [done|]. unfold update. by rewrite Hp.
Qed.

Lemma releasePayment_ok token id s :
  res_status (releasePayment token id s).1 = 200%nat →
  ∃ t p,
    transactions s !! id = Some t
    ∧ token = Some (t_clientId t)
    ∧ is_Some (users s !! t_clientId t)
    ∧ t_status t = T_PENDING
    ∧ projects s !! t_projectId t = Some p
    ∧ releasePayment token id s
      = (mkResponse 200 (JTransaction "Payment released to freelancer" id
                                      (set_t_status T_RELEASED t)),
         settled_store id t p T_RELEASED PAID s).
Proof.
  unfold releasePayment, authenticateToken, error.
  destruct token as [uid|]; [|done].
  destruct (users s !! uid) as [u|] eqn:Hu; [|done].
  destruct (transactions s !! id) as [t|] eqn:Ht; [|done].
  case_bool_decide as Hown; [|done]. case_bool_decide as Hst; [|done]. simpl.
  destruct (settle_cases id t T_RELEASED PAID "Payment released to freelancer"
              "Failed to release payment" s Ht) as [(p & Hp & ->)|[_ ->]];
    [|done].
  intros _. exists t, p. subst. by rewrite Hu.
Qed.

Lemma refundPayment_ok token id s :
  res_status (refundPayment token id s).1 = 200%nat →
  ∃ t p,
    transactions s !! id = Some t
    ∧ token = Some (t_clientId t)
    ∧ is_Some (users s !! t_clientId t)
    ∧ t_status t = T_PENDING
    ∧ projects s !! t_projectId t = Some p
    ∧ refundPayment token id s
      = (mkResponse 200 (JTransaction "Refund processed" id
                                      (set_t_status T_REFUNDED t)),
         settled_store id t p T_REFUNDED CANCELLED s).
Proof.
  unfold refundPayment, authenticateToken, error.
  destruct token as [uid|]; [|done].
  destruct (users s !! uid) as [u|] eqn:Hu; [|done].
  destruct (transactions s !! id) as [t|] eqn:Ht; [|done].
  case_bool_decide as Hown; [|done]. case_bool_decide as Hst; [|done]. simpl.
  destruct (settle_cases id t T_REFUNDED CANCELLED "Refund processed"
              "Failed to process refund" s Ht) as [(p & Hp & ->)|[_ ->]];
    [|done].
  intros _. exists t, p. subst. by rewrite Hu.
Qed.

(** C5: a successful release is a call by the payer on a PENDING
    transaction, after which the transaction is RELEASED and its project
    PAID, both in the store the call leaves; a successful refund likewise
    leaves the transaction REFUNDED and the project CANCELLED. Nothing
    else in the store changes. *)
Theorem release_refund_together (token : option N) (id : N) (s : Store) :
  (res_status (releasePayment token id s).1 = 200%nat →
     ∃ t p,
       transactions s !! id = Some t
       ∧ token = Some (t_clientId t)
       ∧ t_status t = T_PENDING
       ∧ projects s !! t_projectId t = Some p
       ∧ transactions (releasePayment token id s).2
         = <[id := set_t_status T_RELEASED t]> (transactions s)
       ∧ projects (releasePayment token id s).2
         = <[t_projectId t := set_p_status PAID p]> (projects s)
       ∧ users (releasePayment token id s).2 = users s
       ∧ bids (releasePayment token id s).2 = bids s
       ∧ reviews (releasePayment token id s).2 = reviews s)
  ∧ (res_status (refundPayment token id s).1 = 200%nat →
     ∃ t p,
       transactions s !! id = Some t
       ∧ token = Some (t_clientId t)
       ∧ t_status t = T_PENDING
       ∧ projects s !! t_projectId t = Some p
       ∧ transactions (refundPayment token id s).2
         = <[id := set_t_status T_REFUNDED t]> (transactions s)
       ∧ projects (refundPayment token id s).2
         = <[t_projectId t := set_p_status CANCELLED p]> (projects s)
       ∧ users (refundPayment token id s).2 = users s
       ∧ bids (refundPayment token id s).2 = bids s
       ∧ reviews (refundPayment token id s).2 = reviews s).
Proof.
  split; intros Hok.
  - apply releasePayment_ok in Hok as (t & p & Ht & Htok & _ & Hst & Hp & ->).
    exists t, p. done.
  - apply refundPayment_ok in Hok as (t & p & Ht & Htok & _ & Hst & Hp & ->).
    exists t, p. done.
Qed.

Lemma release_refund_together_witness :
  t_status <$> transactions (releasePayment (Some 0%N) 6%N market_accepted).2 !! 6%N
  = Some T_RELEASED
  ∧ p_status <$> projects (releasePayment (Some 0%N) 6%N market_accepted).2 !! 3%N
    = Some PAID
  ∧ t_status <$> transactions (refundPayment (Some 0%N) 6%N market_accepted).2 !! 6%N
    = Some T_REFUNDED
  ∧ p_status <$> projects (refundPayment (Some 0%N) 6%N market_accepted).2 !! 3%N
    = Some CANCELLED.
Proof.
  destruct (release_refund_together (Some 0%N) 6%N market_accepted)
    as [Hrelease Hrefund].
  destruct Hrelease as (t & p & Ht & _ & _ & Hp & -> & -> & _);
    [vm_compute; reflexivity|].
  destruct Hrefund as (t' & p' & Ht' & _ & _ & Hp' & -> & -> & _);
    [vm_compute; reflexivity|].
  vm_compute in Ht, Ht', Hp, Hp'.
  injection Ht as <-. injection Ht' as <-.
  injection Hp as <-. injection Hp' as <-.
  repeat split; vm_compute; reflexivity.
Defined.

(** ** A transaction is settled once *)

Lemma settle_guard uid u id t s :
  users s !! uid = Some u →
  transactions s !! id = Some t →
  t_clientId t = uid →
  t_status t ≠ T_PENDING →
  releasePayment (Some uid) id s = (error 400 "Payment cannot be released", s)
  ∧ refundPayment (Some uid) id s = (error 400 "Payment cannot be refunded", s).
Proof.
  intros Hu Ht Hown Hst. unfold releasePayment, refundPayment, authenticateToken.
  rewrite Hu, Ht. rewrite (bool_decide_eq_true_2 _ Hown). simpl.
  by rewrite (bool_decide_eq_false_2 _ Hst).
Qed.

(** The guards of release and refund: release succeeds only on a PENDING
    transaction; the payer's release or refund of a transaction that is
    RELEASED or REFUNDED is answered Conflict (400) and leaves the store
    unchanged; so a release or refund that directly follows a successful
    one is such a Conflict. *)
Lemma settle_only_once (id : N) (s : Store) :
  (∀ token, res_status (releasePayment token id s).1 = 200%nat →
     ∃ t, transactions s !! id = Some t ∧ t_status t = T_PENDING)
  ∧ (∀ uid u t,
       users s !! uid = Some u →
       transactions s !! id = Some t →
       t_clientId t = uid →
       t_status t = T_RELEASED ∨ t_status t = T_REFUNDED →
       releasePayment (Some uid) id s
         = (error 400 "Payment cannot be released", s)
       ∧ refundPayment (Some uid) id s
         = (error 400 "Payment cannot be refunded", s))
  ∧ (∀ token s',
       settled token id s s' →
       releasePayment token id s'
         = (error 400 "Payment cannot be released", s')
       ∧ refundPayment token id s'
         = (error 400 "Payment cannot be refunded", s')).
Proof.
  split; [|split].
  - intros token Hok.
    apply releasePayment_ok in Hok as (t & p & Ht & _ & _ & Hst & _). eauto.
  - intros uid u t Hu Ht Hown Hst. apply (settle_guard uid u id t s); try done.
    by destruct Hst as [-> | ->].
  - intros token s' [[Hok ->]|[Hok ->]].
    + apply releasePayment_ok in Hok as (t & p & Ht & -> & [u Hu] & Hst & Hp & ->).
      simpl. apply (settle_guard _ u id (set_t_status T_RELEASED t)); simpl;
        [done | by rewrite lookup_insert_eq | done | done].
    + apply refundPayment_ok in Hok as (t & p & Ht & -> & [u Hu] & Hst & Hp & ->).
      simpl. apply (settle_guard _ u id (set_t_status T_REFUNDED t)); simpl;
        [done | by rewrite lookup_insert_eq | done | done].
Qed.

Lemma settle_only_once_example :
  releasePayment (Some 0%N) 6%N (releasePayment (Some 0%N) 6%N market_accepted).2
  = (error 400 "Payment cannot be released",
     (releasePayment (Some 0%N) 6%N market_accepted).2)
  ∧ refundPayment (Some 0%N) 6%N (releasePayment (Some 0%N) 6%N market_accepted).2
    = (error 400 "Payment cannot be refunded",
       (releasePayment (Some 0%N) 6%N market_accepted).2).
Proof.
  destruct (settle_only_once 6%N market_accepted) as (_ & _ & Hsecond).
  apply (Hsecond (Some 0%N)). left. split.
  - vm_compute. reflexivity.
  - reflexivity.
Qed.

(** C6: the second attempt is not always refused. The client releases
    the escrow of the scenario (200: transaction RELEASED, project PAID);
    a confirm-payment of the client for the same project then finds the
    row by its key and writes status PENDING without reading the status
    it had; after that a refund of the same transaction is answered 200,
    not 400, and sets the transaction REFUNDED and the project CANCELLED,
    and a release is answered 200 as well. The last line gives the same
    run as six requests after the setup of the scenario. *)
Lemma settle_twice_after_confirm :
  res_status (releasePayment (Some 0%N) 6%N market_accepted).1 = 200%nat
  ∧ t_status <$> transactions market_released !! 6%N = Some T_RELEASED
  ∧ p_status <$> projects market_released !! 3%N = Some PAID
  ∧ res_status (confirmPayment (Some 0%N) confirm_again market_released).1
    = 200%nat
  ∧ t_status <$> transactions market_reopened !! 6%N = Some T_PENDING
  ∧ res_status (refundPayment (Some 0%N) 6%N market_reopened).1 = 200%nat
  ∧ t_status <$> transactions (refundPayment (Some 0%N) 6%N market_reopened).2 !! 6%N
    = Some T_REFUNDED
  ∧ p_status <$> projects (refundPayment (Some 0%N) 6%N market_reopened).2 !! 3%N
    = Some CANCELLED
  ∧ res_status (releasePayment (Some 0%N) 6%N market_reopened).1 = 200%nat
  ∧ run Restrict refund_after_release empty_store
    = (refundPayment (Some 0%N) 6%N market_reopened).2.
Proof.
  do 9 (split; [vm_compute; reflexivity|]). vm_compute. reflexivity.
Qed.

(** ** The aggregate rating *)



Lemma reviews_received_NoDup uid s : NoDup (reviews_received uid s).
Proof. apply NoDup_filter, NoDup_map_to_list. Qed.




Lemma recompute_rating_Some uid s s' :
  recompute_rating uid s = Some s' →
  ∃ u, users s !! uid = Some u
       ∧ s' = set_users
                (<[uid := set_u_rating (round1 (averageRating (reviews_of uid s))) u]>
                   (users s)) s.
Proof.
  unfold recompute_rating. intros H.
  destruct (update uid _ (users s)) as [[u' us]|] eqn:Hu; [|done].
  simpl in H. simplify_eq.
  apply update_Some in Hu as (u & Hl & -> & ->). eauto.
Qed.







(** ** Guards of review creation *)

Lemma accepted_bidder_spec s pid uid :
  table_some (accepted_bid_of pid uid) (bids s) = true ↔ accepted_bidder s pid uid.
Proof.
  rewrite table_some_true. unfold accepted_bidder, accepted_bid_of.
  split; intros (i & b & Hl & H); exists i, b; (split; [done|]).
  - rewrite !andb_true_iff, !bool_decide_eq_true in H. tauto.
  - destruct H as (-> & -> & ->). by rewrite !bool_decide_eq_true_2.
Qed.

Lemma reviewed_spec s pid reviewer reviewee :
  table_some (same_review pid reviewer reviewee) (reviews s) = true
  ↔ reviewed s pid reviewer reviewee.
Proof.
  rewrite table_some_true. unfold reviewed, same_review.
  split; intros (i & r & Hl & H); exists i, r; (split; [done|]).
  - rewrite !andb_true_iff, !bool_decide_eq_true in H. tauto.
  - destruct H as (-> & -> & ->). by rewrite !bool_decide_eq_true_2.
Qed.

(** C8, as stated, fails: in the scenario's store, where project 3 is
    still POSTED, a well-formed review by the freelancer 2, who neither
    owns project 3 nor has an accepted bid on it, is answered Conflict
    (400), not Forbidden (403): the status of the project is checked
    before the caller. *)
Lemma createReview_forbidden_counterexample :
  let req := mkCreateReviewReq 3%N 1%N 5 None in
  users market_open !! 2%N = Some bob
  ∧ createReview_valid req = true
  ∧ projects market_open !! 3%N = Some user_manual
  ∧ p_clientId user_manual ≠ 2%N
  ∧ ¬ accepted_bidder market_open 3%N 2%N
  ∧ createReview (Some 2%N) req market_open
    = (error 400 "Project must be completed before reviewing", market_open).
Proof.
  repeat split; try (vm_compute; reflexivity).
  - discriminate.
  - intros (i & b & Hl & _). vm_compute in Hl. discriminate Hl.
Qed.

(** C8, amended: for an authenticated caller, a well-formed body and an
    existing project, review creation is answered Conflict (400) unless
    the project is COMPLETED or PAID, whoever the caller is; on a
    COMPLETED or PAID project it is answered Forbidden (403) unless the
    caller is the project's owner or the freelancer whose bid on it is
    ACCEPTED; and for such a caller it is answered Conflict (400) when a
    review with the same project, reviewer and reviewee exists. Each of
    these answers leaves the store unchanged. *)
Theorem createReview_guards (uid : N) (u : User) (req : CreateReviewReq)
    (project : Project) (s : Store) :
  users s !! uid = Some u →
  createReview_valid req = true →
  projects s !! cr_projectId req = Some project →
  let completed := p_status project = COMPLETED ∨ p_status project = PAID in
  let participant :=
    p_clientId project = uid ∨ accepted_bidder s (cr_projectId req) uid in
  (¬ completed →
     createReview (Some uid) req s
     = (error 400 "Project must be completed before reviewing", s))
  ∧ (completed → ¬ participant →
     createReview (Some uid) req s
     = (error 403 "Not authorized to review this project", s))
  ∧ (completed → participant →
     reviewed s (cr_projectId req) uid (cr_revieweeId req) →
     createReview (Some uid) req s
     = (error 400 "You have already reviewed this user for this project", s)).
Proof.
  intros Hu Hvalid Hp completed participant.
  unfold createReview, authenticateToken. rewrite Hu, Hvalid, Hp. simpl.
  assert (Hst : negb (bool_decide (p_status project = PAID))
                && negb (bool_decide (p_status project = COMPLETED)) = false
                ↔ completed).
  { unfold completed. rewrite andb_false_iff, !negb_false_iff.
    rewrite !bool_decide_eq_true. tauto. }
  assert (Hpart : negb (bool_decide (p_clientId project = uid))
                  && negb (table_some (accepted_bid_of (cr_projectId req) uid)
                                      (bids s)) = false
                  ↔ participant).
  { unfold participant. rewrite andb_false_iff, !negb_false_iff.
    by rewrite bool_decide_eq_true, accepted_bidder_spec. }
  destruct (negb (bool_decide (p_status project = PAID)) && _) eqn:Est.
  { split; [done|]. split; intros Hc; apply Hst in Hc; done. }
  split; [intros Hn; destruct Hn; by apply Hst|].
  destruct (negb (bool_decide (p_clientId project = uid)) && _) eqn:Epart.
  { split; [done|]. intros _ Hc. apply Hpart in Hc. done. }
  split; [intros _ Hn; destruct Hn; by apply Hpart|].
  intros _ _ Hrev. apply reviewed_spec in Hrev. by rewrite Hrev.
Qed.

Lemma createReview_guards_witness :
  createReview (Some 1%N) (mkCreateReviewReq 2%N 0%N 5 None) two_reviews
  = (error 403 "Not authorized to review this project", two_reviews).
Proof.
  destruct (createReview_guards 1%N
              (mkUser "Alice" "alice@example.com" FREELANCER ["French"] (45 # 10) None)
              (mkCreateReviewReq 2%N 0%N 5 None) two_reviews_project two_reviews)
    as (_ & Hforbidden & _).
  - vm_compute. reflexivity.
  - reflexivity.
  - vm_compute. reflexivity.
  - apply Hforbidden.
    + left. reflexivity.
    + intros [Hown|(i & b & Hl & _)].
      * discriminate Hown.
      * vm_compute in Hl. discriminate Hl.
Defined.

(** ** What each route does to projects, bids and transactions *)

Lemma core_unchanged_refl s : core_unchanged s s.
Proof. unfold core_unchanged. repeat split; (done || lia). Qed.

Lemma core_unchanged_trans s1 s2 s3 :
  core_unchanged s1 s2 → core_unchanged s2 s3 → core_unchanged s1 s3.
Proof.
  unfold core_unchanged. intros (Hp & Hb & Ht & Hn) (-> & -> & -> & Hn').
  repeat split; (done || lia).
Qed.

Lemma register_core req s : core_unchanged s (register req s).2.
Proof.
  unfold register, create_user.
  repeat case_match; simplify_eq/=; try apply core_unchanged_refl.
  all: unfold core_unchanged; simpl; repeat split; (done || lia).
Qed.

Lemma updateProfile_core token req s : core_unchanged s (updateProfile token req s).2.
Proof.
  unfold updateProfile, authenticateToken.
  repeat case_match; simpl; try apply core_unchanged_refl.
  all: unfold core_unchanged; simpl; repeat split; (done || lia).
Qed.

Lemma createPaymentIntent_core token req s :
  (createPaymentIntent token req s).2 = s.
Proof.
  unfold createPaymentIntent, authenticateToken. by repeat case_match.
Qed.

Lemma recompute_rating_core uid s s' :
  recompute_rating uid s = Some s' → core_unchanged s s'.
Proof.
  intros H. apply recompute_rating_Some in H as (u & _ & ->).
  unfold core_unchanged. simpl. repeat split; (done || lia).
Qed.

Lemma createReview_core token req s : core_unchanged s (createReview token req s).2.
Proof.
  unfold createReview, authenticateToken.
  destruct token as [uid|]; [|apply core_unchanged_refl].
  destruct (users s !! uid); [|apply core_unchanged_refl].
  destruct (negb (createReview_valid req)); [apply core_unchanged_refl|].
  destruct (projects s !! cr_projectId req); [|apply core_unchanged_refl].
  destruct (negb _ && negb _); [apply core_unchanged_refl|].
  destruct (negb _ && negb _); [apply core_unchanged_refl|].
  destruct (table_some _ (reviews s)); [apply core_unchanged_refl|].
  destruct (create_review _ s) as [[rid s1]|] eqn:Hc; [|apply core_unchanged_refl].
  assert (Hs1 : core_unchanged s s1).
  { unfold create_review in Hc. case_match; [|done]. simplify_eq.
    unfold core_unchanged. simpl. repeat split; (done || lia). }
  destruct (recompute_rating _ s1) as [s2|] eqn:Hr; simpl; [|done].
  apply recompute_rating_core in Hr. by apply (core_unchanged_trans s s1 s2).
Qed.

Lemma updateReview_core token id req s :
  core_unchanged s (updateReview token id req s).2.
Proof.
  unfold updateReview, authenticateToken.
  destruct token as [uid|]; [|apply core_unchanged_refl].
  destruct (users s !! uid); [|apply core_unchanged_refl].
  destruct (negb (updateReview_valid req)); [apply core_unchanged_refl|].
  destruct (reviews s !! id) as [review|] eqn:Hl; [|apply core_unchanged_refl].
  destruct (negb _); [apply core_unchanged_refl|].
  rewrite (update_lookup _ _ _ _ Hl).
  assert (Hs1 : core_unchanged s
                  (set_reviews (<[id := apply_review_update req review]> (reviews s)) s))
    by (unfold core_unchanged; simpl; repeat split; (done || lia)).
  destruct (ur_rating req); [|done].
  destruct (recompute_rating _ _) as [s2|] eqn:Hr; simpl; [|done].
  apply recompute_rating_core in Hr. by eapply core_unchanged_trans.
Qed.

Lemma createProject_cases token req s :
  (createProject token req s).2 = s
  ∨ ∃ p, p_status p = POSTED
         ∧ (createProject token req s).2
           = bump_id (set_projects (<[next_id s := p]> (projects s)) s).
Proof.
  unfold createProject, authenticateToken, create_project.
  repeat case_match; simplify_eq/=; try (left; done).
  right. eexists. split; [|done]. done.
Qed.

Lemma updateProject_cases token id req s :
  (updateProject token id req s).2 = s
  ∨ ∃ p, projects s !! id = Some p
         ∧ token = Some (p_clientId p)
         ∧ updateProject_valid req = true
         ∧ (updateProject token id req s).2
           = set_projects (<[id := apply_project_update req p]> (projects s)) s.
Proof.
  unfold updateProject, authenticateToken.
  destruct token as [uid|]; [|left; done].
  destruct (users s !! uid); [|left; done].
  destruct (updateProject_valid req) eqn:Hv; [|left; done]. simpl.
  destruct (projects s !! id) as [p|] eqn:Hp; [|left; done].
  case_bool_decide as Hown; [|left; done]. simpl.
  rewrite (update_lookup _ _ _ _ Hp). right. exists p. by subst.
Qed.

Lemma deleteProject_cases onDelete token id s :
  (deleteProject onDelete token id s).2 = s
  ∨ delete_project onDelete id s = Some (deleteProject onDelete token id s).2.
Proof.
  unfold deleteProject, authenticateToken.
  repeat case_match; simplify_eq/=; try (left; done). by right.
Qed.

Lemma createBid_cases token req s :
  (createBid token req s).2 = s
  ∨ ∃ b, b_status b = PENDING
         ∧ (createBid token req s).2
           = bump_id (set_bids (<[next_id s := b]> (bids s)) s).
Proof.
  unfold createBid, authenticateToken, create_bid.
  repeat case_match; simplify_eq/=; try (left; done).
  right. eexists. split; [|done]. done.
Qed.

Lemma rejectBid_cases token id s :
  (rejectBid token id s).2 = s
  ∨ ∃ b, bids s !! id = Some b
         ∧ (rejectBid token id s).2
           = set_bids (<[id := set_b_status REJECTED b]> (bids s)) s.
Proof.
  unfold rejectBid, authenticateToken.
  destruct token as [uid|]; [|left; done].
  destruct (users s !! uid); [|left; done].
  destruct (bids s !! id) as [b|] eqn:Hb; [|left; done].
  destruct (projects s !! b_projectId b); [|left; done].
  destruct (negb _); [left; done|]. destruct (negb _); [left; done|].
  rewrite (update_lookup _ _ _ _ Hb). right. by exists b.
Qed.

Lemma confirmPayment_cases token req s :
  (confirmPayment token req s).2 = s
  ∨ (∃ tid t,
       transactions s !! tid = Some t
       ∧ (confirmPayment token req s).2
         = set_transactions
             (<[tid := confirm_update (cf_paymentIntentId req) t]> (transactions s)) s)
  ∨ (∃ t, (confirmPayment token req s).2
          = bump_id (set_transactions (<[next_id s := t]> (transactions s)) s)).
Proof.
  unfold confirmPayment, authenticateToken, upsert_transaction.
  destruct token as [uid|]; [|left; done].
  destruct (users s !! uid); [|left; done].
  destruct (negb (confirmPayment_valid req)); [left; done|].
  destruct (cf_stripe req) as [paymentIntent|]; [|left; done].
  destruct (negb _); [left; done|].
  destruct (find_row _ (transactions s)) as [[tid t]|] eqn:Hf.
  - apply find_row_Some in Hf as [Hl _]. right. left. by exists tid, t.
  - destruct (create_transaction _ s) as [[tid s1]|] eqn:Hc; [|left; done].
    apply create_transaction_Some in Hc as (-> & -> & _). right. right.
    by eexists.
Qed.

Lemma settle_settle_effect id t tst pst ok failed s :
  transactions s !! id = Some t →
  settle_effect id tst pst s (settle id t tst pst ok failed s).2.
Proof.
  intros Ht. right. exists t. split; [done|].
  destruct (settle_cases id t tst pst ok failed s Ht) as [(p & Hp & ->)|[_ ->]].
  - right. by exists p.
  - by left.
Qed.

Lemma releasePayment_cases token id s :
  settle_effect id T_RELEASED PAID s (releasePayment token id s).2.
Proof.
  unfold releasePayment, authenticateToken.
  destruct token as [uid|]; [|left; done].
  destruct (users s !! uid); [|left; done].
  destruct (transactions s !! id) as [t|] eqn:Ht; [|left; done].
  destruct (negb _); [left; done|]. destruct (negb _); [left; done|].
  by apply settle_settle_effect.
Qed.

Lemma refundPayment_cases token id s :
  settle_effect id T_REFUNDED CANCELLED s (refundPayment token id s).2.
Proof.
  unfold refundPayment, authenticateToken.
  destruct token as [uid|]; [|left; done].
  destruct (users s !! uid); [|left; done].
  destruct (transactions s !! id) as [t|] eqn:Ht; [|left; done].
  destruct (negb _); [left; done|]. destruct (negb _); [left; done|].
  by apply settle_settle_effect.
Qed.

(** ** Identifiers *)

Lemma ids_fresh_project s i p :
  ids_fresh s → projects s !! i = Some p → (i < next_id s)%N.
Proof.
  intros Hf Hl. destruct (decide (i < next_id s)%N) as [|Hge]; [done|].
  destruct (Hf i) as [Hn _]; [lia|]. congruence.
Qed.

Lemma ids_fresh_transaction s i t :
  ids_fresh s → transactions s !! i = Some t → (i < next_id s)%N.
Proof.
  intros Hf Hl. destruct (decide (i < next_id s)%N) as [|Hge]; [done|].
  destruct (Hf i) as [_ Hn]; [lia|]. congruence.
Qed.

Lemma ids_fresh_core s s' : core_unchanged s s' → ids_fresh s → ids_fresh s'.
Proof.
  intros (Hp & _ & Ht & Hn) Hf i Hi. rewrite Hp, Ht. apply Hf. lia.
Qed.

(** ** At most one accepted bid per project *)

Lemma backed_mono s s' pid : backing_preserved s s' → backed s pid → backed s' pid.
Proof.
  intros [Hps Hts] (p & j & t & Hp & Ht & Hpid & Hcid).
  destruct (Hps _ _ Hp) as (p' & Hp' & Hown).
  destruct (Hts _ _ Ht) as (t' & Ht' & Hpid' & Hcid').
  exists p', j, t'. repeat split; congruence.
Qed.

Lemma escrow_backed_mono s s' :
  backing_preserved s s' → accepted_among s s' →
  escrow_backed s → escrow_backed s'.
Proof.
  intros Hpres Hamong Hb i b' Hl Hst.
  destruct (Hamong _ _ Hl Hst) as (b & Hl0 & Hst0 & <-).
  apply (backed_mono s); [done|]. by apply (Hb i).
Qed.

Lemma single_accepted_mono s s' :
  accepted_among s s' → single_accepted s → single_accepted s'.
Proof.
  intros Hamong Hs i1 i2 b1 b2 Hl1 Hl2 Hst1 Hst2 Hpid.
  destruct (Hamong _ _ Hl1 Hst1) as (c1 & Hc1 & Hcs1 & Hp1).
  destruct (Hamong _ _ Hl2 Hst2) as (c2 & Hc2 & Hcs2 & Hp2).
  apply (Hs i1 i2 c1 c2); try done. congruence.
Qed.

Lemma backing_preserved_same s s' :
  projects s' = projects s → transactions s' = transactions s →
  backing_preserved s s'.
Proof. intros Hp Ht. split; intros k x Hk; [rewrite Hp|rewrite Ht]; eauto. Qed.

(** Writes that preserve the backing. *)
Lemma backing_insert_project_rows (ps : gmap N Project) i p :
  (ps !! i = None ∨ ∃ p0, ps !! i = Some p0 ∧ p_clientId p = p_clientId p0) →
  ∀ k q, ps !! k = Some q →
    ∃ p', <[i := p]> ps !! k = Some p' ∧ p_clientId p' = p_clientId q.
Proof.
  intros Hi k q Hk. destruct (decide (i = k)) as [->|Hne].
  - rewrite lookup_insert_eq. destruct Hi as [Hn|(p0 & Hp0 & Hc)]; [congruence|].
    exists p. split; [done|]. congruence.
  - rewrite lookup_insert_ne by done. eauto.
Qed.

Lemma backing_insert_transaction_rows (ts : gmap N Transaction) j t :
  (ts !! j = None ∨ ∃ t0, ts !! j = Some t0 ∧ t_projectId t = t_projectId t0
                           ∧ t_clientId t = t_clientId t0) →
  ∀ k t1, ts !! k = Some t1 →
    ∃ t', <[j := t]> ts !! k = Some t'
          ∧ t_projectId t' = t_projectId t1 ∧ t_clientId t' = t_clientId t1.
Proof.
  intros Hj k t1 Hk. destruct (decide (j = k)) as [->|Hne].
  - rewrite lookup_insert_eq. destruct Hj as [Hn|(t0 & Ht0 & Hp & Hc)]; [congruence|].
    exists t. split; [done|]. split; congruence.
  - rewrite lookup_insert_ne by done. eauto.
Qed.

Lemma accepted_among_same_bids s s' : bids s' = bids s → accepted_among s s'.
Proof. intros Heq i b' Hl Hst. rewrite Heq in Hl. eauto. Qed.

Lemma invariant_core s s' : core_unchanged s s' → invariant s → invariant s'.
Proof.
  intros Hcore [Hf Hb Hs]. pose proof Hcore as (Hp & Hbids & Ht & Hn).
  split.
  - by apply (ids_fresh_core s).
  - apply (escrow_backed_mono s);
      [by apply backing_preserved_same|by apply accepted_among_same_bids|done].
  - apply (single_accepted_mono s); [by apply accepted_among_same_bids|done].
Qed.

Lemma invariant_new_project s p :
  invariant s →
  invariant (bump_id (set_projects (<[next_id s := p]> (projects s)) s)).
Proof.
  intros [Hf Hb Hs]. split.
  - intros i Hi. simpl in *. destruct (Hf i) as [Hp Ht]; [lia|].
    split; [|done]. rewrite lookup_insert_ne by lia. done.
  - apply (escrow_backed_mono s); [|by apply accepted_among_same_bids|done].
    split; simpl; [|by eauto].
    apply backing_insert_project_rows. left. apply Hf. lia.
  - apply (single_accepted_mono s); [by apply accepted_among_same_bids|done].
Qed.

Lemma invariant_update_project s id p p' :
  projects s !! id = Some p → p_clientId p' = p_clientId p →
  invariant s → invariant (set_projects (<[id := p']> (projects s)) s).
Proof.
  intros Hp Hown [Hf Hb Hs]. split.
  - intros i Hi. simpl in *. destruct (Hf i Hi) as [Hn Ht]. split; [|done].
    rewrite lookup_insert_ne; [done|]. intros ->. congruence.
  - apply (escrow_backed_mono s); [|by apply accepted_among_same_bids|done].
    split; simpl; [|by eauto]. apply backing_insert_project_rows. eauto.
  - apply (single_accepted_mono s); [by apply accepted_among_same_bids|done].
Qed.

Lemma invariant_new_bid s b :
  b_status b = PENDING →
  invariant s → invariant (bump_id (set_bids (<[next_id s := b]> (bids s)) s)).
Proof.
  intros Hpending [Hf Hb Hs].
  assert (Hamong : accepted_among s
            (bump_id (set_bids (<[next_id s := b]> (bids s)) s))).
  { intros i b' Hl Hst. simpl in Hl.
    destruct (decide (next_id s = i)) as [<-|Hne].
    - rewrite lookup_insert_eq in Hl. simplify_eq; congruence.
    - rewrite lookup_insert_ne in Hl by done. eauto. }
  split.
  - intros i Hi. simpl in *. apply Hf. lia.
  - apply (escrow_backed_mono s); [by apply backing_preserved_same|done|done].
  - by apply (single_accepted_mono s).
Qed.

Lemma invariant_reject s id b :
  bids s !! id = Some b →
  invariant s → invariant (set_bids (<[id := set_b_status REJECTED b]> (bids s)) s).
Proof.
  intros Hl0 [Hf Hb Hs].
  assert (Hamong : accepted_among s
            (set_bids (<[id := set_b_status REJECTED b]> (bids s)) s)).
  { intros i b' Hl Hst. simpl in Hl.
    destruct (decide (id = i)) as [<-|Hne].
    - rewrite lookup_insert_eq in Hl. by simplify_eq.
    - rewrite lookup_insert_ne in Hl by done. eauto. }
  split.
  - done.
  - apply (escrow_backed_mono s); [by apply backing_preserved_same|done|done].
  - by apply (single_accepted_mono s).
Qed.

Lemma invariant_update_transaction s tid t t' :
  transactions s !! tid = Some t →
  t_projectId t' = t_projectId t → t_clientId t' = t_clientId t →
  invariant s → invariant (set_transactions (<[tid := t']> (transactions s)) s).
Proof.
  intros Ht Hpid Hcid [Hf Hb Hs]. split.
  - intros i Hi. destruct (Hf i Hi) as [Hn Hn']. simpl. split; [done|].
    rewrite lookup_insert_ne; [done|]. intros ->. rewrite Ht in Hn'. done.
  - apply (escrow_backed_mono s); [|by apply accepted_among_same_bids|done].
    split; simpl; [by eauto|]. apply backing_insert_transaction_rows.
    right. by exists t.
  - apply (single_accepted_mono s); [by apply accepted_among_same_bids|done].
Qed.

Lemma invariant_new_transaction s t :
  invariant s →
  invariant (bump_id (set_transactions (<[next_id s := t]> (transactions s)) s)).
Proof.
  intros [Hf Hb Hs]. split.
  - intros i Hi. simpl in *. destruct (Hf i) as [Hp Ht]; [lia|].
    split; [done|]. rewrite lookup_insert_ne by lia. done.
  - apply (escrow_backed_mono s); [|by apply accepted_among_same_bids|done].
    split; simpl; [by eauto|].
    apply backing_insert_transaction_rows. left. apply Hf. lia.
  - apply (single_accepted_mono s); [by apply accepted_among_same_bids|done].
Qed.

Lemma invariant_settle id tst pst s s' :
  settle_effect id tst pst s s' → invariant s → invariant s'.
Proof.
  intros [->|(t & Ht & [->|(p & Hp & ->)])] Hinv; [done|..].
  - by apply (invariant_update_transaction s id t).
  - pose proof (invariant_update_transaction s id t (set_t_status tst t)
                  Ht eq_refl eq_refl Hinv) as Hinv1.
    exact (invariant_update_project
             (set_transactions (<[id := set_t_status tst t]> (transactions s)) s)
             (t_projectId t) p (set_p_status pst p) Hp eq_refl Hinv1).
Qed.

Lemma deleteMany_None {A : Type} (P : N → A → bool) (m : gmap N A) i :
  m !! i = None → deleteMany P m !! i = None.
Proof.
  intros Hn. destruct (deleteMany P m !! i) as [r|] eqn:Hl; [|done].
  apply lookup_deleteMany_Some in Hl as [Hl _]. congruence.
Qed.

Lemma invariant_delete_project onDelete id s s' :
  delete_project onDelete id s = Some s' → invariant s → invariant s'.
Proof.
  intros Hdel [Hf Hb Hs]. destruct onDelete; simpl in Hdel.
  - (* Cascade *)
    simplify_eq.
    assert (Hamong : ∀ i b',
              deleteMany (λ _ b, bool_decide (b_projectId b = id)) (bids s) !! i
              = Some b' →
              bids s !! i = Some b' ∧ b_projectId b' ≠ id).
    { intros i b' Hl. apply lookup_deleteMany_Some in Hl as [Hl HP].
      split; [done|]. by apply bool_decide_eq_false in HP. }
    split.
    + intros i Hi. destruct (Hf i Hi) as [Hp Ht]. simpl. split.
      * apply lookup_delete_None. by right.
      * by apply deleteMany_None.
    + intros i b' Hl Hst. simpl in Hl. apply Hamong in Hl as [Hl Hne].
      destruct (Hb i b' Hl Hst) as (p & j & t & Hp & Ht & Hpid & Hcid).
      exists p, j, t. simpl. split; [by rewrite lookup_delete_ne|].
      split; [|done]. apply lookup_deleteMany_Some. split; [done|].
      apply bool_decide_eq_false. congruence.
    + intros i1 i2 b1 b2 Hl1 Hl2. simpl in Hl1, Hl2.
      apply Hamong in Hl1 as [Hl1 _]. apply Hamong in Hl2 as [Hl2 _].
      by apply Hs.
  - (* Restrict *)
    destruct (references_project s id) eqn:Href; [done|]. simplify_eq.
    unfold references_project in Href.
    apply orb_false_iff in Href as [Href _].
    apply orb_false_iff in Href as [Hbids _].
    split.
    + intros i Hi. destruct (Hf i Hi) as [Hp Ht]. simpl. split; [|done].
      apply lookup_delete_None. by right.
    + intros i b Hl Hst. simpl in Hl.
      destruct (Hb i b Hl Hst) as (p & j & t & Hp & Ht & Hpid & Hcid).
      exists p, j, t. simpl. split; [|done].
      rewrite lookup_delete_ne; [done|]. intros Heq.
      pose proof (proj1 (table_some_false _ _) Hbids i b Hl) as Hne.
      apply bool_decide_eq_false in Hne. congruence.
    + done.
Qed.

Lemma invariant_accept id bid project s :
  bids s !! id = Some bid →
  projects s !! b_projectId bid = Some project →
  table_some (same_project_client (b_projectId bid) (p_clientId project))
             (transactions s) = false →
  invariant s → invariant (accepted_store id bid project s).
Proof.
  intros Hbid Hproject Hnone [Hf Hb Hs].
  assert (Hpres : backing_preserved s (accepted_store id bid project s)).
  { split; simpl.
    - apply backing_insert_project_rows. right. by exists project.
    - apply backing_insert_transaction_rows. left. apply Hf. lia. }
  assert (Hacc : ∀ i b', bids (accepted_store id bid project s) !! i = Some b' →
             b_status b' = ACCEPTED →
             (i = id ∧ b_projectId b' = b_projectId bid)
             ∨ (i ≠ id ∧ bids s !! i = Some b')).
  { intros i b' Hl Hst. simpl in Hl. rewrite lookup_updateMany in Hl.
    destruct (decide (id = i)) as [<-|Hne].
    - rewrite lookup_insert_eq in Hl. simpl in Hl. left. split; [done|].
      by destruct (other_pending _ _ _ _); simplify_eq.
    - rewrite lookup_insert_ne in Hl by done. right. split; [done|].
      destruct (bids s !! i) as [b0|]; [|done]. simpl in Hl.
      destruct (other_pending _ _ _ _); simplify_eq; done. }
  assert (Hfree : ∀ i b, bids s !! i = Some b → b_status b = ACCEPTED →
             b_projectId b ≠ b_projectId bid).
  { intros i b Hl Hst Hpid.
    destruct (Hb i b Hl Hst) as (p & j & t & Hp & Ht & Htp & Htc).
    rewrite Hpid, Hproject in Hp. simplify_eq.
    pose proof (proj1 (table_some_false _ _) Hnone j t Ht) as Hfalse.
    unfold same_project_client in Hfalse.
    rewrite !bool_decide_eq_true_2 in Hfalse by congruence. done. }
  split.
  - intros i Hi. simpl in *. destruct (Hf i) as [Hp Ht]; [lia|]. split.
    + rewrite lookup_insert_ne; [done|]. intros Heq. rewrite Heq in Hproject.
      congruence.
    + rewrite lookup_insert_ne by lia. done.
  - intros i b' Hl Hst. destruct (Hacc i b' Hl Hst) as [[-> Hpid]|[Hne Hl0]].
    + rewrite Hpid.
      exists (set_p_status IN_PROGRESS project), (next_id s),
        (mkTransaction (b_projectId bid) (p_clientId project)
           (b_freelancerId bid) (b_bidAmount bid) None T_PENDING).
      simpl. by rewrite !lookup_insert_eq.
    + apply (backed_mono s); [done|]. by apply (Hb i).
  - intros i1 i2 b1 b2 Hl1 Hl2 Hst1 Hst2 Hpid.
    destruct (Hacc i1 b1 Hl1 Hst1) as [[-> Hp1]|[Hne1 Hl01]];
      destruct (Hacc i2 b2 Hl2 Hst2) as [[-> Hp2]|[Hne2 Hl02]].
    + done.
    + destruct (Hfree i2 b2 Hl02 Hst2). congruence.
    + destruct (Hfree i1 b1 Hl01 Hst1). congruence.
    + by apply (Hs i1 i2 b1 b2).
Qed.

Lemma invariant_empty : invariant empty_store.
Proof.
  split.
  - intros i _. split; apply lookup_empty.
  - intros i b Hl. simpl in Hl. by rewrite lookup_empty in Hl.
  - intros i1 i2 b1 b2 Hl. simpl in Hl. by rewrite lookup_empty in Hl.
Qed.

(** Every route preserves the invariant. *)
Lemma invariant_handle onDelete rq s :
  invariant s → invariant (handle onDelete rq s).2.
Proof.
  intros Hinv. destruct rq as
    [req|token req|token req|token id req|token id|token req|token id|token id
    |token req|token req|token id|token id|token req|token id req]; simpl.
  - apply (invariant_core s); [apply register_core|done].
  - apply (invariant_core s); [apply updateProfile_core|done].
  - destruct (createProject_cases token req s) as [->|(p & _ & ->)]; [done|].
    by apply invariant_new_project.
  - destruct (updateProject_cases token id req s)
      as [->|(p & Hp & _ & _ & ->)]; [done|].
    by apply (invariant_update_project s id p).
  - destruct (deleteProject_cases onDelete token id s) as [->|Hdel]; [done|].
    by apply (invariant_delete_project onDelete id s).
  - destruct (createBid_cases token req s) as [->|(b & Hb & ->)]; [done|].
    by apply invariant_new_bid.
  - destruct (acceptBid_cases token id s)
      as [[_ ->]|(uid & bid & project & _ & Hb & Hp & _ & _ & Hnone & ->)];
      [done|].
    by apply invariant_accept.
  - destruct (rejectBid_cases token id s) as [->|(b & Hb & ->)]; [done|].
    by apply invariant_reject.
  - by rewrite createPaymentIntent_core.
  - destruct (confirmPayment_cases token req s)
      as [->|[(tid & t & Ht & ->)|(t & ->)]]; [done|..].
    + by apply (invariant_update_transaction s tid t).
    + by apply invariant_new_transaction.
  - apply (invariant_settle id T_RELEASED PAID s); [apply releasePayment_cases|done].
  - apply (invariant_settle id T_REFUNDED CANCELLED s); [apply refundPayment_cases|done].
  - apply (invariant_core s); [apply createReview_core|done].
  - apply (invariant_core s); [apply updateReview_core|done].
Qed.

Lemma invariant_run onDelete rqs s : invariant s → invariant (run onDelete rqs s).
Proof.
  revert s. induction rqs as [|rq rqs IH]; intros s Hinv; [done|].
  simpl. apply IH. by apply invariant_handle.
Qed.

Lemma reachable_invariant onDelete s : reachable onDelete s → invariant s.
Proof. intros [rqs ->]. apply invariant_run, invariant_empty. Qed.

(** In the scenario continued, the second accept is rolled back: it is
    answered 500 and the store stays as the reset left it, with bid 4
    ACCEPTED and bid 5 REJECTED. *)
Example second_accept_rolled_back :
  let reset :=
    run Restrict
      (market_setup
       ++ [ PostBid (Some 1%N) bid_450; PostBid (Some 2%N) bid_480;
            PutBidAccept (Some 0%N) 4%N;
            PutProject (Some 0%N) 3%N (set_status_req "POSTED") ])
      empty_store in
  p_status <$> projects reset !! 3%N = Some POSTED
  ∧ acceptBid (Some 0%N) 5%N reset = (error 500 "Failed to accept bid", reset)
  ∧ b_status <$> bids reset !! 4%N = Some ACCEPTED
  ∧ b_status <$> bids reset !! 5%N = Some REJECTED.
Proof. repeat split; vm_compute; reflexivity. Qed.

(** C2: in every store reached from the empty store by any sequence of
    requests, two accepted bids on the same project are the same bid: a
    project has at most one ACCEPTED bid. (A second accept on a project,
    possible once its owner has set the status back to POSTED, needs a
    second transaction row for the same project and client, which the
    unique key of the transaction table refuses, so the whole
    [$transaction] is rolled back.) *)
Theorem at_most_one_accepted (onDelete : ReferentialAction) (s : Store)
    (i1 i2 : N) (b1 b2 : Bid) :
  reachable onDelete s →
  bids s !! i1 = Some b1 →
  bids s !! i2 = Some b2 →
  b_status b1 = ACCEPTED →
  b_status b2 = ACCEPTED →
  b_projectId b1 = b_projectId b2 →
  i1 = i2.
Proof.
  intros Hreach. apply reachable_invariant in Hreach as [_ _ Hsingle].
  apply Hsingle.
Qed.

Lemma at_most_one_accepted_witness :
  reachable Restrict (run Restrict accept_twice empty_store)
  ∧ bids (run Restrict accept_twice empty_store) !! 4%N
    = Some (mkBid 3%N 1%N 450 "2 days" ACCEPTED)
  ∧ 4%N = 4%N
  ∧ (∀ i b, bids (run Restrict accept_twice empty_store) !! i = Some b →
            b_status b = ACCEPTED → b_projectId b = 3%N → i = 4%N).
Proof.
  assert (Hreach : reachable Restrict (run Restrict accept_twice empty_store))
    by (exists accept_twice; reflexivity).
  assert (Hbid : bids (run Restrict accept_twice empty_store) !! 4%N
                 = Some (mkBid 3%N 1%N 450 "2 days" ACCEPTED))
    by (vm_compute; reflexivity).
  split; [exact Hreach|]. split; [exact Hbid|]. split.
  - exact (at_most_one_accepted Restrict (run Restrict accept_twice empty_store)
             4%N 4%N (mkBid 3%N 1%N 450 "2 days" ACCEPTED)
             (mkBid 3%N 1%N 450 "2 days" ACCEPTED)
             Hreach Hbid Hbid eq_refl eq_refl eq_refl).
  - intros i b Hl Hst Hpid.
    exact (at_most_one_accepted Restrict (run Restrict accept_twice empty_store)
             i 4%N b (mkBid 3%N 1%N 450 "2 days" ACCEPTED)
             Hreach Hl Hbid Hst eq_refl Hpid).
Defined.

(** ** Project status transitions *)

(** C9, as stated, fails: the owner's project update sets any of the five
    statuses without looking at the current one. In the scenario the
    owner cancels project 3 and then sets it to POSTED again: the status
    leaves CANCELLED and moves backwards. *)
Lemma status_order_counterexample :
  let cancelled :=
    run Restrict (market_setup ++ [PutProject (Some 0%N) 3%N (set_status_req "CANCELLED")])
        empty_store in
  let reposted :=
    (handle Restrict (PutProject (Some 0%N) 3%N (set_status_req "POSTED")) cancelled).2 in
  p_status <$> projects cancelled !! 3%N = Some CANCELLED
  ∧ p_status <$> projects reposted !! 3%N = Some POSTED.
Proof. split; vm_compute; reflexivity. Qed.

Lemma apply_project_update_status req p :
  p_status (apply_project_update req p) ≠ p_status p →
  ∃ x, up_status req = Some x
       ∧ parse_project_status x = Some (p_status (apply_project_update req p)).
Proof.
  unfold apply_project_update. simpl.
  destruct (up_status req) as [x|]; simpl; [|done].
  destruct (parse_project_status x) as [st|] eqn:Hparse; simpl; [|done].
  intros _. exists x. by rewrite Hparse.
Qed.

(** C9, amended: in a reachable store a request changes the status of a
    project only as follows: a bid acceptance takes it from POSTED to
    IN_PROGRESS, an escrow release sets it to PAID, an escrow refund sets
    it to CANCELLED, and the owner's project update sets it to the status
    named in the request; that update is accepted from every current
    status for each of the five statuses, so neither the order POSTED,
    IN_PROGRESS, COMPLETED, PAID nor the finality of CANCELLED is
    enforced. *)
Theorem status_changes (onDelete : ReferentialAction) (s : Store) :
  reachable onDelete s →
  (∀ rq i p p',
     projects s !! i = Some p →
     projects (handle onDelete rq s).2 !! i = Some p' →
     p_status p' ≠ p_status p →
     (∃ token id, rq = PutBidAccept token id
                  ∧ p_status p = POSTED ∧ p_status p' = IN_PROGRESS)
     ∨ (∃ token id, rq = PostRelease token id ∧ p_status p' = PAID)
     ∨ (∃ token id, rq = PostRefund token id ∧ p_status p' = CANCELLED)
     ∨ (∃ req x, rq = PutProject (Some (p_clientId p)) i req
                 ∧ up_status req = Some x
                 ∧ parse_project_status x = Some (p_status p')))
  ∧ (∀ i p u x st,
       projects s !! i = Some p →
       users s !! p_clientId p = Some u →
       parse_project_status x = Some st →
       p_status <$>
         projects (handle onDelete
                     (PutProject (Some (p_clientId p)) i (set_status_req x)) s).2 !! i
       = Some st).
Proof.
  intros Hreach. apply reachable_invariant in Hreach as [Hf _ _]. split.
  - intros rq i p p' Hp Hp' Hne.
    assert (Hi : (i < next_id s)%N) by by apply (ids_fresh_project s i p).
    destruct rq as
      [req|token req|token req|token id req|token id|token req|token id|token id
      |token req|token req|token id|token id|token req|token id req];
      simpl in Hp'.
    + destruct (register_core req s) as (Heq & _). rewrite Heq in Hp'. congruence.
    + destruct (updateProfile_core token req s) as (Heq & _).
      rewrite Heq in Hp'. congruence.
    + destruct (createProject_cases token req s) as [Heq|(q & _ & Heq)];
        rewrite Heq in Hp'; [congruence|].
      simpl in Hp'. rewrite lookup_insert_ne in Hp' by lia. congruence.
    + destruct (updateProject_cases token id req s)
        as [Heq|(q & Hq & -> & _ & Heq)]; rewrite Heq in Hp'; [congruence|].
      simpl in Hp'. destruct (decide (id = i)) as [->|Hid].
      * rewrite lookup_insert_eq in Hp'. simplify_eq.
        apply apply_project_update_status in Hne as (x & Hx & Hparse).
        right. right. right. by exists req, x.
      * rewrite lookup_insert_ne in Hp' by done. congruence.
    + destruct (deleteProject_cases onDelete token id s) as [Heq|Hdel];
        [rewrite Heq in Hp'; congruence|].
      assert (Hps : projects (deleteProject onDelete token id s).2
                    = delete id (projects s)).
      { unfold delete_project in Hdel. destruct onDelete.
        - by injection Hdel as <-.
        - destruct (references_project s id); [done|]. by injection Hdel as <-. }
      rewrite Hps in Hp'. apply lookup_delete_Some in Hp' as [_ Hp']. congruence.
    + destruct (createBid_cases token req s) as [Heq|(b & _ & Heq)];
        rewrite Heq in Hp'; simpl in Hp'; congruence.
    + destruct (acceptBid_cases token id s)
        as [[_ Heq]|(uid & bid & project & _ & Hb & Hproj & _ & Hst & _ & Heq)];
        rewrite Heq in Hp'; [congruence|].
      simpl in Hp'. destruct (decide (b_projectId bid = i)) as [Hpid|Hpid].
      * rewrite Hpid, lookup_insert_eq in Hp'. rewrite Hpid, Hp in Hproj.
        simplify_eq. left. by exists token, id.
      * rewrite lookup_insert_ne in Hp' by done. congruence.
    + destruct (rejectBid_cases token id s) as [Heq|(b & _ & Heq)];
        rewrite Heq in Hp'; simpl in Hp'; congruence.
    + rewrite createPaymentIntent_core in Hp'. congruence.
    + destruct (confirmPayment_cases token req s)
        as [Heq|[(tid & t & _ & Heq)|(t & Heq)]];
        rewrite Heq in Hp'; simpl in Hp'; congruence.
    + destruct (releasePayment_cases token id s)
        as [Heq|(t & Ht & [Heq|(q & Hq & Heq)])];
        rewrite Heq in Hp'; simpl in Hp'; [congruence..|].
      destruct (decide (t_projectId t = i)) as [Hpid|Hpid].
      * rewrite Hpid, lookup_insert_eq in Hp'. simplify_eq.
        right. left. by exists token, id.
      * rewrite lookup_insert_ne in Hp' by done. congruence.
    + destruct (refundPayment_cases token id s)
        as [Heq|(t & Ht & [Heq|(q & Hq & Heq)])];
        rewrite Heq in Hp'; simpl in Hp'; [congruence..|].
      destruct (decide (t_projectId t = i)) as [Hpid|Hpid].
      * rewrite Hpid, lookup_insert_eq in Hp'. simplify_eq.
        right. right. left. by exists token, id.
      * rewrite lookup_insert_ne in Hp' by done. congruence.
    + destruct (createReview_core token req s) as (Heq & _).
      rewrite Heq in Hp'. congruence.
    + destruct (updateReview_core token id req s) as (Heq & _).
      rewrite Heq in Hp'. congruence.
  - intros i p u x st Hp Hu Hparse. simpl.
    unfold updateProject, authenticateToken. rewrite Hu.
    assert (Hvalid : updateProject_valid (set_status_req x) = true).
    { unfold updateProject_valid. simpl. rewrite Hparse.
      by rewrite bool_decide_eq_true_2. }
    rewrite Hvalid, Hp. simpl. rewrite bool_decide_eq_true_2 by done. simpl.
    rewrite (update_lookup _ _ _ _ Hp). simpl. rewrite lookup_insert_eq. simpl.
    by rewrite Hparse.
Qed.

Lemma status_changes_witness :
  p_status <$>
    projects (handle Restrict (PutProject (Some 0%N) 3%N (set_status_req "COMPLETED"))
                     market_bids).2 !! 3%N
  = Some COMPLETED.
Proof.
  destruct (status_changes Restrict market_bids) as [_ Hset].
  - exists (market_setup
            ++ [PostBid (Some 1%N) bid_450; PostBid (Some 2%N) bid_480])%list.
    vm_compute. reflexivity.
  - apply (Hset 3%N user_manual
             (mkUser "Carol" "carol@example.com" CLIENT [] 0 None)
             "COMPLETED" COMPLETED).
    + vm_compute. reflexivity.
    + vm_compute. reflexivity.
    + reflexivity.
Defined.

(** ** The owner of a project *)

Lemma requireRole_role role u : requireRole [role] u = true → u_role u = role.
Proof.
  unfold requireRole. simpl. rewrite orb_false_r.
  intros H. by apply bool_decide_eq_true in H.
Qed.

Lemma recompute_rating_None uid s :
  recompute_rating uid s = None → users s !! uid = None.
Proof.
  unfold recompute_rating, update. by destruct (users s !! uid).
Qed.

(** Every answer of the server is one of the effects. *)
Lemma handle_effect onDelete rq s : effect onDelete s (handle onDelete rq s).2.
Proof.
  destruct rq as
    [req|token req|token req|token id req|token id|token req|token id|token id
    |token req|token req|token id|token id|token req|token id req]; simpl.
  - (* register *)
    unfold register, create_user.
    destruct (parse_role (rg_role req)) as [role|] eqn:Hrole; [|apply eff_none].
    destruct (negb (register_valid req)); [apply eff_none|].
    destruct (table_some _ (users s)) eqn:Hmail; [apply eff_none|]. simpl.
    apply eff_register; simpl; [done|done|].
    intros ->. case_bool_decide as Hf; [|done].
    unfold parse_role in Hrole. rewrite Hf in Hrole. by simpl in Hrole.
  - (* profile *)
    unfold updateProfile, authenticateToken.
    destruct token as [uid|]; [|apply eff_none].
    destruct (users s !! uid) as [u|] eqn:Hu; [|apply eff_none].
    destruct (negb (updateProfile_valid req)); [apply eff_none|].
    destruct (pf_languages req) as [[l|]|];
      try case_bool_decide; try apply eff_none;
      rewrite (update_lookup _ _ _ _ Hu); simpl; by apply eff_profile.
  - (* create project *)
    unfold createProject, authenticateToken, create_project.
    destruct token as [uid|]; [|apply eff_none].
    destruct (users s !! uid) as [u|] eqn:Hu; [|apply eff_none].
    destruct (requireRole [CLIENT] u) eqn:Hrole; [|apply eff_none]. simpl.
    destruct (negb (createProject_valid req)); [apply eff_none|]. simpl.
    destruct (has_row (users s) uid) eqn:Hrow; [|apply eff_none]. simpl.
    apply (eff_create_project onDelete s _ u); simpl; [done|by apply requireRole_role|done].
  - (* update project *)
    destruct (updateProject_cases token id req s)
      as [->|(p & Hp & _ & _ & ->)]; [apply eff_none|].
    by apply eff_update_project.
  - (* delete project *)
    unfold deleteProject, authenticateToken.
    destruct token as [uid|]; [|apply eff_none].
    destruct (users s !! uid); [|apply eff_none].
    destruct (projects s !! id) as [p|] eqn:Hp; [|apply eff_none].
    destruct (negb _); [apply eff_none|].
    unfold delete_project. destruct onDelete; simpl.
    + apply eff_delete_cascade; [done|by rewrite Hp].
    + destruct (references_project s id) eqn:Href; [apply eff_none|]. simpl.
      apply eff_delete_restrict; [done|by rewrite Hp|done].
  - (* create bid *)
    unfold createBid, authenticateToken, create_bid.
    destruct token as [uid|]; [|apply eff_none].
    destruct (users s !! uid) as [u|] eqn:Hu; [|apply eff_none].
    destruct (negb (requireRole _ u)); [apply eff_none|].
    destruct (negb (createBid_valid req)); [apply eff_none|].
    destruct (projects s !! cb_projectId req) as [p|] eqn:Hp; [|apply eff_none].
    case_bool_decide as Hst; [|apply eff_none]. simpl.
    case_bool_decide as Hown; [apply eff_none|].
    destruct (table_some _ (bids s)) eqn:Hdup; [apply eff_none|]. simpl.
    destruct (has_row _ _ && has_row _ _); [|apply eff_none]. simpl.
    apply (eff_create_bid onDelete s _ p); simpl; try done; by rewrite Hu.
  - (* accept *)
    destruct (acceptBid_cases token id s)
      as [[_ ->]|(uid & bid & project & _ & Hb & Hp & _ & Hst & Hnone & ->)];
      [apply eff_none|].
    by apply eff_accept.
  - (* reject *)
    unfold rejectBid, authenticateToken.
    destruct token as [uid|]; [|apply eff_none].
    destruct (users s !! uid); [|apply eff_none].
    destruct (bids s !! id) as [b|] eqn:Hb; [|apply eff_none].
    destruct (projects s !! b_projectId b); [|apply eff_none].
    destruct (negb _); [apply eff_none|].
    case_bool_decide as Hst; [|apply eff_none]. simpl.
    rewrite (update_lookup _ _ _ _ Hb). simpl. by apply eff_reject.
  - (* payment intent *)
    rewrite createPaymentIntent_core. apply eff_none.
  - (* confirm payment *)
    unfold confirmPayment, authenticateToken, upsert_transaction.
    destruct token as [uid|]; [|apply eff_none].
    destruct (users s !! uid); [|apply eff_none].
    destruct (negb (confirmPayment_valid req)); [apply eff_none|].
    destruct (cf_stripe req) as [paymentIntent|]; [|apply eff_none].
    destruct (negb _); [apply eff_none|].
    destruct (find_row _ (transactions s)) as [[tid t]|] eqn:Hf.
    + apply find_row_Some in Hf as [Hl _]. simpl. by apply eff_confirm_update.
    + destruct (create_transaction _ s) as [[tid s1]|] eqn:Hc; [|apply eff_none].
      apply create_transaction_Some in Hc as (-> & -> & _ & Hnone). simpl.
      by apply eff_confirm_create.
  - (* release *)
    unfold releasePayment, authenticateToken.
    destruct token as [uid|]; [|apply eff_none].
    destruct (users s !! uid); [|apply eff_none].
    destruct (transactions s !! id) as [t|] eqn:Ht; [|apply eff_none].
    destruct (negb _); [apply eff_none|].
    case_bool_decide as Hst; [|apply eff_none]. simpl.
    destruct (settle_cases id t T_RELEASED PAID "Payment released to freelancer"
                "Failed to release payment" s Ht) as [(p & Hp & ->)|[Hp ->]]; simpl.
    + by apply eff_settle.
    + by apply eff_settle_transaction.
  - (* refund *)
    unfold refundPayment, authenticateToken.
    destruct token as [uid|]; [|apply eff_none].
    destruct (users s !! uid); [|apply eff_none].
    destruct (transactions s !! id) as [t|] eqn:Ht; [|apply eff_none].
    destruct (negb _); [apply eff_none|].
    case_bool_decide as Hst; [|apply eff_none]. simpl.
    destruct (settle_cases id t T_REFUNDED CANCELLED "Refund processed"
                "Failed to process refund" s Ht) as [(p & Hp & ->)|[Hp ->]]; simpl.
    + by apply eff_settle.
    + by apply eff_settle_transaction.
  - (* create review *)
    unfold createReview, authenticateToken.
    destruct token as [uid|]; [|apply eff_none].
    destruct (users s !! uid); [|apply eff_none].
    destruct (createReview_valid req) eqn:Hv; [|apply eff_none]. simpl.
    destruct (projects s !! cr_projectId req); [|apply eff_none].
    destruct (negb _ && negb _); [apply eff_none|].
    destruct (negb _ && negb _); [apply eff_none|].
    destruct (table_some _ (reviews s)); [apply eff_none|].
    unfold create_review. simpl.
    destruct (has_row _ _ && has_row _ _ && has_row _ _) eqn:Hrows;
      [|apply eff_none].
    rewrite !andb_true_iff, !has_row_true in Hrows.
    destruct Hrows as [_ [v Hv']].
    unfold recompute_rating. simpl. rewrite (update_lookup _ _ _ _ Hv'). simpl.
    unfold createReview_valid in Hv. apply andb_true_iff in Hv as [Hv _].
    exact (eff_create_review onDelete s
             (mkReview (cr_projectId req) uid (cr_revieweeId req)
                       (cr_rating req) (cr_comment req)) v Hv Hv').
  - (* update review *)
    unfold updateReview, authenticateToken.
    destruct token as [uid|]; [|apply eff_none].
    destruct (users s !! uid); [|apply eff_none].
    destruct (updateReview_valid req) eqn:Hv; [|apply eff_none]. simpl.
    destruct (reviews s !! id) as [r|] eqn:Hl; [|apply eff_none].
    destruct (negb _); [apply eff_none|].
    rewrite (update_lookup _ _ _ _ Hl).
    destruct (ur_rating req) as [x|] eqn:Hx; simpl.
    + unfold recompute_rating. simpl.
      destruct (users s !! r_revieweeId r) as [v|] eqn:Hv'.
      * rewrite (update_lookup _ _ _ _ Hv'). simpl.
        by apply (eff_update_review_rating onDelete s id r req v).
      * unfold update. rewrite Hv'. simpl.
        apply eff_update_review; [done|done|by right].
    + apply eff_update_review; [done|done|by left].
Qed.

Lemma run_effect onDelete (P : Store → Prop) :
  P empty_store →
  (∀ s s', P s → effect onDelete s s' → P s') →
  ∀ s, reachable onDelete s → P s.
Proof.
  intros Hempty Hstep s [rqs ->]. unfold run.
  assert (Hgen : ∀ s0, P s0 →
            P (fold_left (λ st rq, (handle onDelete rq st).2) rqs s0)).
  { induction rqs as [|rq rqs IH]; intros s0 Hs0; [done|].
    simpl. apply IH. apply (Hstep s0); [done|]. apply handle_effect. }
  by apply Hgen.
Qed.

Lemma insert_fresh_None {A : Type} (m : gmap N A) (k i : N) (x : A) :
  m !! i = None → (is_Some (m !! k) ∨ k ≠ i) → <[k := x]> m !! i = None.
Proof.
  intros Hn [[y Hy]|Hne]; rewrite lookup_insert_ne; try done.
  intros ->. congruence.
Qed.

Lemma updateMany_None {A : Type} (P : N → A → bool) (f : A → A) (m : gmap N A) i :
  m !! i = None → updateMany P f m !! i = None.
Proof. intros Hn. by rewrite lookup_updateMany, Hn. Qed.

Ltac fresh_tables :=
  repeat match goal with
  | |- _ ∧ _ => split
  | |- <[_ := _]> _ !! _ = None => apply insert_fresh_None
  | |- delete _ _ !! _ = None => apply lookup_delete_None; right
  | |- deleteMany _ _ !! _ = None => apply deleteMany_None
  | |- updateMany _ _ _ !! _ = None => apply updateMany_None
  | |- is_Some _ ∨ _ ≠ _ => first [left; by eauto | right; lia]
  | |- _ !! _ = None => assumption
  end.

Lemma all_fresh_effect onDelete s s' : all_fresh s → effect onDelete s s' → all_fresh s'.
Proof.
  intros Hf Heff i Hi.
  destruct Heff; simpl in Hi |- *;
    (destruct (Hf i) as (Hu & Hp & Hb & Ht & Hr); [lia|]);
    unfold accepted_store, settled_store, rated_store; simpl;
    fresh_tables.
Qed.

Lemma all_fresh_reachable onDelete s : reachable onDelete s → all_fresh s.
Proof.
  apply (run_effect onDelete all_fresh).
  - intros i _. simpl. by rewrite !lookup_empty.
  - intros s0 s1. apply all_fresh_effect.
Qed.

Ltac effect_cases Heff :=
  destruct Heff as
    [ | u Hmail Hrating Hlang | uid u name languages file Hu Hlang
    | p owner Hclient Hrole Hst | id p req Hp | id Hmode Hp Href | id Hmode Hp
    | b p Hp Hu Hst Hown Hdup Hpend | id bid project Hb Hp Hst Hnone
    | id b Hb Hst | tid t pid Ht | t Hnone Hst | id t tst Ht Hst Hp
    | id t p tst pst Ht Hst Hp | r u Hv Hu | id r req Hr Hv Hor
    | id r req u Hr Hv Hu ].


(** No route writes the role of an account, and no account is removed. *)
Lemma users_role_kept onDelete s s' j v :
  all_fresh s → effect onDelete s s' →
  users s !! j = Some v →
  ∃ v', users s' !! j = Some v' ∧ u_role v' = u_role v.
Proof.
  intros Hfresh Heff Hj.
  assert (Hne : j ≠ next_id s).
  { intros ->. destruct (Hfresh (next_id s)) as (Hn & _); [lia|]. congruence. }
  effect_cases Heff; simpl; try by exists v.
  - rewrite lookup_insert_ne by done. by exists v.
  - rewrite lookup_insert. case_decide; simplify_eq; eexists; by split.
  - rewrite lookup_insert. case_decide; simplify_eq; eexists; by split.
  - rewrite lookup_insert. case_decide; simplify_eq; eexists; by split.
Qed.

(** A project of the new store is a project of the old one with the same
    owner, or it was just created by a client. *)
Lemma projects_owner_origin onDelete s s' i q' :
  effect onDelete s s' →
  projects s' !! i = Some q' →
  (∃ q, projects s !! i = Some q ∧ p_clientId q' = p_clientId q)
  ∨ (∃ v, users s !! p_clientId q' = Some v ∧ u_role v = CLIENT).
Proof.
  intros Heff Hl.
  effect_cases Heff; simpl in Hl; try (left; by exists q').
  - rewrite lookup_insert in Hl. case_decide; simplify_eq.
    + right. by exists owner.
    + left. by exists q'.
  - rewrite lookup_insert in Hl. case_decide; simplify_eq.
    + left. by exists p.
    + left. by exists q'.
  - apply lookup_delete_Some in Hl as [_ Hl]. left. by exists q'.
  - apply lookup_delete_Some in Hl as [_ Hl]. left. by exists q'.
  - rewrite lookup_insert in Hl. case_decide; simplify_eq.
    + left. by exists project.
    + left. by exists q'.
  - rewrite lookup_insert in Hl. case_decide; simplify_eq.
    + left. by exists p.
    + left. by exists q'.
Qed.

Lemma owners_are_clients_effect onDelete s s' :
  all_fresh s → owners_are_clients s → effect onDelete s s' →
  owners_are_clients s'.
Proof.
  intros Hfresh Hinv Heff i q' Hq'.
  assert (Hold : ∃ v, users s !! p_clientId q' = Some v ∧ u_role v = CLIENT).
  { destruct (projects_owner_origin onDelete s s' i q' Heff Hq')
      as [(q & Hq & Heq)|Hcreated]; [|done].
    rewrite Heq. by apply (Hinv i q). }
  destruct Hold as (v & Hw & Hcl).
  destruct (users_role_kept onDelete s s' _ v Hfresh Heff Hw) as (v' & Hw' & Hcl').
  exists v'. split; [done|congruence].
Qed.

Lemma owners_are_clients_reachable onDelete s :
  reachable onDelete s → owners_are_clients s.
Proof.
  intros Hreach.
  cut (all_fresh s ∧ owners_are_clients s); [by intros []|].
  revert s Hreach.
  apply (run_effect onDelete (λ s, all_fresh s ∧ owners_are_clients s)).
  - split.
    + intros i _. simpl. by rewrite !lookup_empty.
    + intros i q Hq. simpl in Hq. by rewrite lookup_empty in Hq.
  - intros s0 s1 [Hfresh Hinv] Heff. split.
    + by apply (all_fresh_effect onDelete s0).
    + by apply (owners_are_clients_effect onDelete s0).
Qed.

(** In the stores the routes build, the owner of a project is a client,
    so a bid of the owner on the project is answered Forbidden (403)
    before the own-project guard of the route is reached. *)
Lemma createBid_owner_forbidden (onDelete : ReferentialAction) (s : Store)
    (req : CreateBidReq) (project : Project) :
  reachable onDelete s →
  projects s !! cb_projectId req = Some project →
  createBid (Some (p_clientId project)) req s = (error 403 "Forbidden", s).
Proof.
  intros Hreach Hp.
  destruct (owners_are_clients_reachable onDelete s Hreach _ _ Hp)
    as (v & Hw & Hcl).
  unfold createBid, authenticateToken. rewrite Hw.
  rewrite (requireRole_other FREELANCER v); [done|]. by rewrite Hcl.
Qed.
